(** * Conversational assistant: STT -> Ollama LLM -> TTS loop

    A shallow embedding of [conversational_assistant.py], [wer.py] and
    [verify_model] of [tts_stt.py], and the properties of the dialogue
    loop, the generation client, the reply sanitizer, the prompt builder,
    the word-error-rate utility and the check of the model directory.

    Conventions of the embedding.
    - A Python [str] is a [string]; a character stands for a code point
      in the range 0..255, and the whitespace and word classes below are
      Python's on that range.  Text algorithms work on [list ascii].
    - A Python [dict] with string keys and string values is a
      [gmap string string].
    - Code that can raise returns a [res]; the external world (HTTP
      server, [ollama] process, microphone queue, clock, TTS engine) is
      given to each function as the outcome of the calls it makes.
    - A Python [bytes] is a [list Byte.byte].
    - [json.loads] (of a [str] and of a [bytes]) and [str()] of a
      non-string are library functions: they are parameters of the
      sections that use them; [json_loads_ref] is a reference parser for
      a subset of JSON on which examples are run. *)

From Stdlib Require Import Ascii String List ZArith QArith Lia Bool DecimalString.
From stdpp Require Import base list strings gmap.

Set Warnings "-register-all".

Local Open Scope string_scope.
Local Open Scope list_scope.

(** ** Characters and Python string methods *)

Module Py.

Definition code (c : ascii) : nat := nat_of_ascii c.

Definition between (lo hi n : nat) : bool := (lo <=? n)%nat && (n <=? hi)%nat.

(** [str.isspace] on one character; also the class [\s] of [re]. *)
Definition is_space (c : ascii) : bool :=
  let n := code c in
  between 9 13 n || between 28 32 n || (n =? 133)%nat || (n =? 160)%nat.

(** The class [\w] of [re] on a [str] pattern: alphanumerics and [_]. *)
Definition is_word (c : ascii) : bool :=
  let n := code c in
  between 48 57 n || between 65 90 n || (n =? 95)%nat || between 97 122 n
  || (n =? 170)%nat || between 178 179 n || (n =? 181)%nat
  || between 185 186 n || between 188 190 n || between 192 214 n
  || between 216 246 n || between 248 255 n.

Definition nl : ascii := "010"%char.
Definition tab : ascii := "009"%char.
Definition dquote : ascii := "034"%char.

(** [str.lstrip()], [str.rstrip()] and [str.strip()] on character lists. *)
Fixpoint lstrip_l (l : list ascii) : list ascii :=
  match l with
  | [] => []
  | c :: l' => if is_space c then lstrip_l l' else l
  end.

Fixpoint rstrip_l (l : list ascii) : list ascii :=
  match l with
  | [] => []
  | c :: l' =>
      match rstrip_l l' with
      | [] => if is_space c then [] else [c]
      | r => c :: r
      end
  end.

Definition strip_l (l : list ascii) : list ascii := rstrip_l (lstrip_l l).

Definition strip (s : string) : string :=
  string_of_list_ascii (strip_l (list_ascii_of_string s)).

(** [str.split()] without argument: maximal runs of non-whitespace. *)
Fixpoint split_l (cur : list ascii) (l : list ascii) : list (list ascii) :=
  match l with
  | [] => match cur with [] => [] | _ => [rev cur] end
  | c :: l' =>
      if is_space c
      then match cur with [] => split_l [] l' | _ => rev cur :: split_l [] l' end
      else split_l (c :: cur) l'
  end.

Definition split (s : string) : list string :=
  map string_of_list_ascii (split_l [] (list_ascii_of_string s)).

(** [sep.join(parts)]. *)
Fixpoint join (sep : string) (parts : list string) : string :=
  match parts with
  | [] => ""
  | [p] => p
  | p :: ps => p +:+ sep +:+ join sep ps
  end.

(** Case mapping of one character on the range 0..255: the letters of
    ASCII and of Latin-1 ([0xC0]..[0xDE] and [0xE0]..[0xFE], but for the
    signs [0xD7] and [0xF7]); other characters are left as they are. *)
Definition upper_c (c : ascii) : ascii :=
  let n := code c in
  if between 97 122 n || (between 224 254 n && negb (n =? 247)%nat)
  then ascii_of_nat (n - 32) else c.

Definition lower_c (c : ascii) : ascii :=
  let n := code c in
  if between 65 90 n || (between 192 222 n && negb (n =? 215)%nat)
  then ascii_of_nat (n + 32) else c.

Fixpoint map_s (f : ascii -> ascii) (s : string) : string :=
  match s with
  | EmptyString => EmptyString
  | String c s' => String (f c) (map_s f s')
  end.

(** [str.capitalize()]: first character in title case, the rest in lower
    case.  The title case of [0xDF] is [Ss]; that of [0xB5] and of
    [0xFF] lies outside the range 0..255, and these two characters are
    left as they are. *)
Definition capitalize (s : string) : string :=
  match s with
  | EmptyString => EmptyString
  | String c s' =>
      if (code c =? 223)%nat then String "S" (String "s" (map_s lower_c s'))
      else String (upper_c c) (map_s lower_c s')
  end.

(** Python truthiness of a [str]: [not text] is [true] on the empty string. *)
Definition str_truthy (s : string) : bool :=
  match s with EmptyString => false | _ => true end.

End Py.

(** ** JSON values, as [json.loads] builds them *)

(** A Python [float]: finite values are kept as exact rationals. *)
Inductive pyfloat :=
| FNan
| FInf (negative : bool)
| FRat (q : Q).

(** A [dict] made by [json.loads] is kept as the list of its items in
    insertion order; keys are distinct. *)
Inductive json :=
| JNull
| JBool (b : bool)
| JInt (n : Z)
| JFloat (f : pyfloat)
| JStr (s : string)
| JArr (items : list json)
| JObj (items : list (string * json)).

Definition float_truthy (f : pyfloat) : bool :=
  match f with
  | FRat q => negb (Qeq_bool q 0)
  | _ => true
  end.

(** Python truth value of a decoded JSON value. *)
Definition truthy (v : json) : bool :=
  match v with
  | JNull => false
  | JBool b => b
  | JInt n => negb (n =? 0)%Z
  | JFloat f => float_truthy f
  | JStr s => Py.str_truthy s
  | JArr l => match l with [] => false | _ => true end
  | JObj d => match d with [] => false | _ => true end
  end.

(** [d.get(k)] on the items of a dict. *)
Fixpoint dict_get (k : string) (d : list (string * json)) : option json :=
  match d with
  | [] => None
  | (k', v) :: d' => if String.eqb k k' then Some v else dict_get k d'
  end.

(** [d[k] = v]: replaces the value of an existing key, else appends. *)
Fixpoint dict_set (k : string) (v : json) (d : list (string * json))
  : list (string * json) :=
  match d with
  | [] => [(k, v)]
  | (k', v') :: d' =>
      if String.eqb k k' then (k', v) :: d' else (k', v') :: dict_set k v d'
  end.

(** [isinstance(obj, dict)], giving the items. *)
Definition as_dict (v : json) : option (list (string * json)) :=
  match v with JObj d => Some d | _ => None end.

(** ** Exceptions *)

Inductive exn :=
| RequestException     (* requests: connection refused, timeout, bad chunk *)
| HTTPError            (* raise_for_status *)
| FileNotFoundError
| TimeoutExpired       (* subprocess.run(..., timeout=60) *)
| OSError              (* any other failure to run the process *)
| PortAudioError
| TypeError            (* [''.join] over a list that holds a [bytes] *)
| KeyboardInterrupt.

(** [except Exception] catches everything but [KeyboardInterrupt]. *)
Definition is_Exception (e : exn) : bool :=
  match e with KeyboardInterrupt => false | _ => true end.

Definition is_FileNotFoundError (e : exn) : bool :=
  match e with FileNotFoundError => true | _ => false end.

Definition is_KeyboardInterrupt (e : exn) : bool :=
  match e with KeyboardInterrupt => true | _ => false end.

Inductive res (A : Type) :=
| Ret (a : A)
| Raise (e : exn).
Arguments Ret {A} a.
Arguments Raise {A} e.


(** ** A reference JSON parser

    [json_loads_ref] decodes the JSON texts made of objects, arrays,
    strings without escapes, integers, [true], [false] and [null]; it
    gives [None] where [json.loads] raises on such texts.  Texts with
    escapes, fractions or exponents are outside its domain. *)

Module JsonRef.

Definition json_ws (c : ascii) : bool :=
  match Py.code c with
  | 32 | 9 | 10 | 13 => true
  | _ => false
  end.

Fixpoint skip_ws (l : list ascii) : list ascii :=
  match l with
  | c :: l' => if json_ws c then skip_ws l' else l
  | [] => []
  end.

Definition is_digit (c : ascii) : bool := Py.between 48 57 (Py.code c).

(** The characters of a string up to its closing quote. *)
Fixpoint parse_string (l : list ascii) : option (string * list ascii) :=
  match l with
  | [] => None
  | c :: l' =>
      if Ascii.eqb c Py.dquote then Some ("", l')
      else if Ascii.eqb c "\"%char || (Py.code c <? 32)%nat then None
      else match parse_string l' with
           | Some (s, r) => Some (String c s, r)
           | None => None
           end
  end.

Fixpoint parse_digits (acc : Z) (l : list ascii) : Z * list ascii :=
  match l with
  | c :: l' =>
      if is_digit c
      then parse_digits (10 * acc + Z.of_nat (Py.code c - 48)) l'
      else (acc, l)
  | [] => (acc, [])
  end.

(** An optional minus sign, then [0] or a digit string without leading
    zero, not followed by a fraction or an exponent. *)
Definition parse_int (l : list ascii) : option (Z * list ascii) :=
  let '(neg, l1) :=
    match l with
    | c :: l' => if Ascii.eqb c "-"%char then (true, l') else (false, l)
    | [] => (false, l)
    end in
  match l1 with
  | c :: l2 =>
      if is_digit c then
        let '(n, r) :=
          if Ascii.eqb c "0"%char then (0%Z, l2) else parse_digits 0 l1 in
        match r with
        | d :: _ =>
            if is_digit d || Ascii.eqb d "."%char || Ascii.eqb d "e"%char
               || Ascii.eqb d "E"%char
            then None
            else Some (if neg then (- n)%Z else n, r)
        | [] => Some (if neg then (- n)%Z else n, r)
        end
      else None
  | [] => None
  end.

Fixpoint strip_prefix (p l : list ascii) : option (list ascii) :=
  match p, l with
  | [], _ => Some l
  | a :: p', b :: l' => if Ascii.eqb a b then strip_prefix p' l' else None
  | _ :: _, [] => None
  end.

Definition literal (word : string) (v : json) (l : list ascii)
  : option (json * list ascii) :=
  match strip_prefix (list_ascii_of_string word) l with
  | Some r => Some (v, r)
  | None => None
  end.

Fixpoint parse_value (fuel : nat) (l : list ascii) : option (json * list ascii) :=
  match fuel with
  | 0 => None
  | S f =>
      match skip_ws l with
      | [] => None
      | c :: r =>
          if Ascii.eqb c "{"%char then
            match skip_ws r with
            | c' :: r' =>
                if Ascii.eqb c' "}"%char then Some (JObj [], r')
                else parse_members f [] r
            | [] => None
            end
          else if Ascii.eqb c "["%char then
            match skip_ws r with
            | c' :: r' =>
                if Ascii.eqb c' "]"%char then Some (JArr [], r')
                else parse_elements f [] r
            | [] => None
            end
          else if Ascii.eqb c Py.dquote then
            match parse_string r with
            | Some (s, r') => Some (JStr s, r')
            | None => None
            end
          else if Ascii.eqb c "t"%char then literal "true" (JBool true) (c :: r)
          else if Ascii.eqb c "f"%char then literal "false" (JBool false) (c :: r)
          else if Ascii.eqb c "n"%char then literal "null" JNull (c :: r)
          else match parse_int (c :: r) with
               | Some (n, r') => Some (JInt n, r')
               | None => None
               end
      end
  end
with parse_members (fuel : nat) (acc : list (string * json)) (l : list ascii)
  : option (json * list ascii) :=
  match fuel with
  | 0 => None
  | S f =>
      match skip_ws l with
      | c :: r =>
          if Ascii.eqb c Py.dquote then
            match parse_string r with
            | Some (k, r1) =>
                match skip_ws r1 with
                | c1 :: r2 =>
                    if Ascii.eqb c1 ":"%char then
                      match parse_value f r2 with
                      | Some (v, r3) =>
                          match skip_ws r3 with
                          | c3 :: r4 =>
                              if Ascii.eqb c3 ","%char
                              then parse_members f (dict_set k v acc) r4
                              else if Ascii.eqb c3 "}"%char
                              then Some (JObj (dict_set k v acc), r4)
                              else None
                          | [] => None
                          end
                      | None => None
                      end
                    else None
                | [] => None
                end
            | None => None
            end
          else None
      | [] => None
      end
  end
with parse_elements (fuel : nat) (acc : list json) (l : list ascii)
  : option (json * list ascii) :=
  match fuel with
  | 0 => None
  | S f =>
      match parse_value f l with
      | Some (v, r) =>
          match skip_ws r with
          | c :: r' =>
              if Ascii.eqb c ","%char then parse_elements f (acc ++ [v]) r'
              else if Ascii.eqb c "]"%char then Some (JArr (acc ++ [v]), r')
              else None
          | [] => None
          end
      | None => None
      end
  end.

End JsonRef.

Definition json_loads_ref (s : string) : option json :=
  let l := list_ascii_of_string s in
  match JsonRef.parse_value (S (length l)) l with
  | Some (v, r) =>
      match JsonRef.skip_ws r with
      | [] => Some v
      | _ => None
      end
  | None => None
  end.

(** Writes a JSON text with ['] for the double quote. *)
(** [json.loads] of a [bytes] decodes it first; for ASCII, the range of
    the examples, the [str] has the same characters. *)
Definition json_loads_bytes_ref (b : list Byte.byte) : option json :=
  json_loads_ref (string_of_list_byte b).

Definition jtext (s : string) : string :=
  Py.map_s (fun c => if Ascii.eqb c "'"%char then Py.dquote else c) s.

(** [str(v)] of a decoded value that is not a string, on integers,
    booleans and [None]; the empty string stands for the other values. *)
Definition py_repr_ref (v : json) : string :=
  match v with
  | JNull => "None"
  | JBool true => "True"
  | JBool false => "False"
  | JInt n => NilEmpty.string_of_int (Z.to_int n)
  | _ => ""
  end.
(** ** [re.sub] for patterns that never match the empty string *)

Module Re.

(** A pattern, as the matcher sees it: given the character before the
    position ([None] at the start of the text) and the text from the
    position on, the length of the match there, if any. *)
Definition matcher := option ascii -> list ascii -> option nat.

(** The scan of [re.sub]: at a match the replacement is emitted and the
    scan resumes behind the match; elsewhere the character is copied.
    Every step consumes a character, so [length l] steps are enough. *)
Fixpoint sub_aux (m : matcher) (repl : list ascii) (fuel : nat)
    (prev : option ascii) (l : list ascii) : list ascii :=
  match fuel with
  | 0 => l
  | S f =>
      match l with
      | [] => []
      | c :: l' =>
          match m prev l with
          | Some (S k) =>
              repl ++ sub_aux m repl f (last (c :: take k l')) (drop k l')
          | _ => c :: sub_aux m repl f (Some c) l'
          end
      end
  end.

Definition sub_l (m : matcher) (repl l : list ascii) : list ascii :=
  sub_aux m repl (length l) None l.

Definition sub (m : matcher) (repl s : string) : string :=
  string_of_list_ascii
    (sub_l m (list_ascii_of_string repl) (list_ascii_of_string s)).

(** Number of leading characters in the class [f]. *)
Fixpoint span_len (f : ascii -> bool) (l : list ascii) : nat :=
  match l with
  | c :: l' => if f c then S (span_len f l') else 0
  | [] => 0
  end.

Fixpoint is_prefix (p l : list ascii) : bool :=
  match p, l with
  | [], _ => true
  | a :: p', b :: l' => Ascii.eqb a b && is_prefix p' l'
  | _ :: _, [] => false
  end.

(** [(?:L1|L2|...):] at the head of [l]: the length of the first
    alternative that matches, colon included. *)
Fixpoint label_len (labels : list string) (l : list ascii) : option nat :=
  match labels with
  | [] => None
  | L :: rest =>
      let p := list_ascii_of_string L ++ [":"%char] in
      if is_prefix p l then Some (length p) else label_len rest l
  end.

(** [(?:L1|L2|...):\s*] at the head of [l]. *)
Definition label_ws (labels : list string) (l : list ascii) : option nat :=
  match label_len labels l with
  | Some n => Some (n + span_len Py.is_space (drop n l))
  | None => None
  end.

(** [^] under [re.MULTILINE]: start of the text or just after a newline. *)
Definition at_line_start (prev : option ascii) : bool :=
  match prev with
  | None => true
  | Some c => Ascii.eqb c Py.nl
  end.

(** [\b]: exactly one of the two neighbours is a word character. *)
Definition at_boundary (prev : option ascii) (l : list ascii) : bool :=
  xorb (match prev with Some c => Py.is_word c | None => false end)
       (match l with c :: _ => Py.is_word c | [] => false end).

(** [^(?:AI|Assistant|User|System):\s*] with [re.MULTILINE]. *)
Definition line_label : matcher := fun prev l =>
  if at_line_start prev
  then label_ws ["AI"; "Assistant"; "User"; "System"] l
  else None.

(** [\b(?:User|Assistant|AI|System):\s*]. *)
Definition inline_label : matcher := fun prev l =>
  if at_boundary prev l
  then label_ws ["User"; "Assistant"; "AI"; "System"] l
  else None.

(** [C{2,}] for a character class [C]. *)
Definition run2 (f : ascii -> bool) : matcher := fun _ l =>
  let n := span_len f l in
  if (2 <=? n)%nat then Some n else None.

Definition is_nl (c : ascii) : bool := Ascii.eqb c Py.nl.
Definition is_blank (c : ascii) : bool :=
  Ascii.eqb c " "%char || Ascii.eqb c Py.tab.

(** [\n{2,}] and [[ \t]{2,}]. *)
Definition newlines : matcher := run2 is_nl.
Definition blanks : matcher := run2 is_blank.

(** Where a pattern matches is given by a condition [g] on the character
    before and a set [W] of words, one of which starts the text. *)
Definition hit (g : option ascii -> bool) (W : list (list ascii))
    (prev : option ascii) (l : list ascii) : bool :=
  g prev && existsb (fun w => is_prefix w l) W.

Definition detects (m : matcher) (g : option ascii -> bool)
    (W : list (list ascii)) : Prop :=
  forall prev l, m prev l = None <-> hit g W prev l = false.

(** No position of [l] (with [prev] before it) is a [hit]. *)
Fixpoint free (g : option ascii -> bool) (W : list (list ascii))
    (prev : option ascii) (l : list ascii) : Prop :=
  match l with
  | [] => True
  | c :: l' => hit g W prev l = false /\ free g W (Some c) l'
  end.

Definition colon (L : string) : list ascii :=
  list_ascii_of_string L ++ [":"%char].

Definition label_words : list (list ascii) :=
  map colon ["User"; "Assistant"; "AI"; "System"].

Definition not_after_word (prev : option ascii) : bool :=
  match prev with Some c => negb (Py.is_word c) | None => true end.

Definition always (prev : option ascii) : bool := true.

Definition nl_words : list (list ascii) := [[Py.nl; Py.nl]].

Definition blank_words : list (list ascii) :=
  [[" "; " "]; [" "; Py.tab]; [Py.tab; " "]; [Py.tab; Py.tab]]%char.

(** The character before the position behind [pre], in a text that
    follows [prev]. *)
Definition prev_at (prev : option ascii) (pre : list ascii) : option ascii :=
  match last pre with
  | Some x => Some x
  | None => prev
  end.

(** The condition on the character before holds at the start of the
    text and after whitespace. *)
Definition open_after_space (g : option ascii -> bool) : Prop :=
  g None = true /\ forall c, Py.is_space c = true -> g (Some c) = true.

(** Non-empty words made of other characters than the class [f]. *)
Definition clean_words (f : ascii -> bool) (W : list (list ascii)) : bool :=
  forallb (fun w => match w with
                    | [] => false
                    | _ => forallb (fun c => negb (f c)) w
                    end) W.

End Re.

(** The four [re.sub] calls and the final [strip] of [clean_reply], on
    character lists. *)
Definition scrub_l (l : list ascii) : list ascii :=
  Py.strip_l
    (Re.sub_l Re.blanks [" "%char]
       (Re.sub_l Re.newlines [Py.nl]
          (Re.sub_l Re.inline_label []
             (Re.sub_l Re.line_label [] l)))).

Definition label_texts : list string := ["User"; "Assistant"; "AI"; "System"].

(** A text on which the sanitizer has nothing left to do: no whitespace
    at its ends, no two newlines in a row, no two blanks in a row, and a
    role label only directly behind a word character. *)
Definition normal_text (l : list ascii) : Prop :=
  Py.strip_l l = l
  /\ (forall pre suf, l <> pre ++ Py.nl :: Py.nl :: suf)
  /\ (forall pre a b suf,
        l = pre ++ a :: b :: suf -> Re.is_blank a && Re.is_blank b = false)
  /\ (forall pre L suf,
        In L label_texts -> l = pre ++ Re.colon L ++ suf ->
        exists c, last pre = Some c /\ Py.is_word c = true).

(** ** The generation client, the sanitizer and the dialogue loop *)

(** A line as [resp.iter_lines(decode_unicode=True)] yields it: a
    [str] when the response declares a charset ([resp.encoding] is set),
    the undecoded [bytes] when it declares none, as a response of type
    [application/x-ndjson] does. *)
Inductive text :=
| Str (s : string)
| Bytes (b : list Byte.byte).

(** What [requests.post(..., stream=True)] and the iteration over
    [resp.iter_lines] give: the call raises, or answers with a status
    (which [raise_for_status] accepts or not) and a body read line by
    line, where reading can raise. *)
Inductive chunk :=
| Got (raw : text)
| Broken (e : exn).

(** A decoded line and an undecoded line. *)
Definition Line (raw : string) : chunk := Got (Str raw).
Definition BytesLine (raw : list Byte.byte) : chunk := Got (Bytes raw).

(** [not raw] for a line. *)
Definition text_truthy (raw : text) : bool :=
  match raw with
  | Str s => Py.str_truthy s
  | Bytes [] => false
  | Bytes (_ :: _) => true
  end.

(** [''.join(pieces)]: [TypeError] when an item is not a [str]. *)
Fixpoint join_pieces (pieces : list text) : res string :=
  match pieces with
  | [] => Ret ""
  | Str s :: rest =>
      match join_pieces rest with
      | Ret t => Ret (s +:+ t)
      | Raise e => Raise e
      end
  | Bytes _ :: _ => Raise TypeError
  end.

Inductive http_call :=
| PostRaises (e : exn)
| Response (status_ok : bool) (body : list chunk).

(** What [subprocess.run(["ollama", "query", model, prompt], ...)] gives. *)
Inductive cli_run :=
| Completed (returncode : Z) (stdout stderr : string)
| RunRaises (e : exn).

(** One pass of the listening loop: [q.get(timeout=0.5)] gives a frame,
    which the recognizer accepts as final (with the decoded [Result()])
    or not, or raises [queue.Empty]; [now] is the clock at that time; or
    an exception arrives there. *)
Inductive queue_get :=
| Frame (now : Q) (final : option (gmap string string))
| Empty (now : Q)
| Interrupt (e : exn).

Record microphone := {
  open_error : option exn;    (* [sd.RawInputStream(...)] raises *)
  start : Q;                  (* [time.time()] when the stream opens *)
  events : list queue_get
}.

Record args := {
  timeout : option Q;         (* [--timeout], [None] by default *)
  ollama_model : string;
  no_clean : bool
}.

Record state := {
  history : list (gmap string string);
  requests : list (string * string);   (* prompt, model: calls of query_ollama *)
  spoken : list string                 (* texts given to [tts_say] *)
}.

(** The generation service: what [requests.post(API_URL, json={"model":
    model, "prompt": prompt}, stream=True, timeout=60)] and what
    [subprocess.run(["ollama", "query", model, prompt], ...)] give. *)
Record backend := {
  post : string -> string -> http_call;    (* model, prompt *)
  run : string -> string -> cli_run        (* model, prompt *)
}.

(** The outside world during one iteration of the loop. *)
Record turn_io := {
  mic : microphone;
  service : backend;
  tts : string -> option exn  (* [tts_say(text)] raises *)
}.

Definition sentinel_cli_not_found : string := "[ERROR: ollama CLI not found]".
Definition apology : string := "Sorry, I couldn't produce a response.".
Definition nl_s : string := String Py.nl "".

(** [history[-n:]]. *)
Definition last_slice {A} (n : nat) (l : list A) : list A :=
  drop (length l - n) l.

Definition user_turn (text : string) : gmap string string :=
  <["role" := "user"]> (<["text" := text]> ∅).

Definition assistant_turn (text : string) : gmap string string :=
  <["role" := "assistant"]> (<["text" := text]> ∅).

(** The line [f"{role.capitalize()}: {text}"] of one history entry. *)
Definition render (m : gmap string string) : string :=
  let role := default "user" (m !! "role") in
  let text := default "" (m !! "text") in
  Py.capitalize role +:+ ": " +:+ text.

Definition build_prompt (history : list (gmap string string))
    (user_text : string) : string :=
  let out := foldl (fun out m => out ++ [render m]) [] (last_slice 10 history) in
  let out := out ++ ["User: " +:+ user_text] in
  let out := out ++ ["Assistant:"] in
  Py.join nl_s out.

(** [timeout and (time.time() - start) > timeout]. *)
Definition timed_out (timeout : option Q) (start now : Q) : bool :=
  match timeout with
  | None => false
  | Some t => negb (Qeq_bool t 0) && negb (Qle_bool (now - start) t)
  end.

(** The [while True] of [listen_once] over the events of the queue;
    [None] when the events are used up and the loop still waits. *)
Fixpoint listen_loop (timeout : option Q) (start : Q) (evs : list queue_get)
  : option (res string) :=
  match evs with
  | [] => None
  | Empty now :: rest =>
      if timed_out timeout start now then Some (Ret "")
      else listen_loop timeout start rest
  | Frame _ (Some result) :: _ => Some (Ret (default "" (result !! "text")))
  | Frame _ None :: rest => listen_loop timeout start rest
  | Interrupt e :: _ =>
      if is_KeyboardInterrupt e then Some (Ret "") else Some (Raise e)
  end.

Definition listen_once (timeout : option Q) (m : microphone)
  : option (res string) :=
  match open_error m with
  | Some e => if is_KeyboardInterrupt e then Some (Ret "") else Some (Raise e)
  | None => listen_loop timeout (start m) (events m)
  end.

Definition query_ollama_cli (b : backend) (prompt model : string) : res string :=
  match run b model prompt with
  | Completed rc out err =>
      if (rc =? 0)%Z
      then Ret (if Py.str_truthy (Py.strip out) then Py.strip out else Py.strip err)
      else Ret (Py.strip (out +:+ err))
  | RunRaises e =>
      if is_FileNotFoundError e then Ret sentinel_cli_not_found else Raise e
  end.

(** The lines of a text, as separated by newlines. *)
Fixpoint lines_of (cur : string) (s : string) : list string :=
  match s with
  | EmptyString => [cur]
  | String c s' =>
      if Ascii.eqb c Py.nl then cur :: lines_of "" s'
      else lines_of (cur +:+ String c "") s'
  end.

Definition lines (s : string) : list string := lines_of "" s.

Fixpoint has_nl (s : string) : bool :=
  match s with
  | EmptyString => false
  | String c s' => Ascii.eqb c Py.nl || has_nl s'
  end.

(** ** Word error rate ([wer.py]) *)

Module Wer.

Local Open Scope nat_scope.

(** [dp[i][j]] and [dp[i][j] = v]; every index the code uses is within
    the [(n+1) x (m+1)] matrix. *)
Definition get2 (dp : list (list nat)) (i j : nat) : nat :=
  default 0 (row ← dp !! i; row !! j).

Definition set2 (dp : list (list nat)) (i j v : nat) : list (list nat) :=
  alter (fun row => <[j := v]> row) i dp.

(** [ref_words[i] == hyp_words[j]]. *)
Definition same_word (ref_words hyp_words : list string) (i j : nat) : bool :=
  match ref_words !! i, hyp_words !! j with
  | Some x, Some y => String.eqb x y
  | _, _ => false
  end.

Definition fill_dp (ref_words hyp_words : list string) : list (list nat) :=
  let n := length ref_words in
  let m := length hyp_words in
  let dp := replicate (n + 1) (replicate (m + 1) 0) in
  let dp := foldl (fun dp i => set2 dp i 0 i) dp (seq 1 n) in
  let dp := foldl (fun dp j => set2 dp 0 j j) dp (seq 1 m) in
  foldl (fun dp i =>
    foldl (fun dp j =>
      if same_word ref_words hyp_words (i - 1) (j - 1)
      then set2 dp i j (get2 dp (i - 1) (j - 1))
      else
        let substitute := get2 dp (i - 1) (j - 1) + 1 in
        let insert := get2 dp i (j - 1) + 1 in
        let delete := get2 dp (i - 1) j + 1 in
        set2 dp i j (Nat.min substitute (Nat.min insert delete)))
      dp (seq 1 m))
    dp (seq 1 n).

(** The [while i > 0 or j > 0] backtrack; [i + j] decreases at each
    pass, so [n + m] passes are enough.  The result is [(S, D, I)]. *)
Fixpoint backtrack (fuel : nat) (dp : list (list nat))
    (ref_words hyp_words : list string) (i j : nat) (sdi : nat * nat * nat)
  : nat * nat * nat :=
  match fuel with
  | 0 => sdi
  | S fuel' =>
      let '(s, d, ins) := sdi in
      if (0 <? i) || (0 <? j) then
        if (0 <? i) && (0 <? j) && same_word ref_words hyp_words (i - 1) (j - 1)
        then backtrack fuel' dp ref_words hyp_words (i - 1) (j - 1) sdi
        else if (0 <? i) && (0 <? j)
                && (get2 dp i j =? get2 dp (i - 1) (j - 1) + 1)
        then backtrack fuel' dp ref_words hyp_words (i - 1) (j - 1) (s + 1, d, ins)
        else if (0 <? j) && (get2 dp i j =? get2 dp i (j - 1) + 1)
        then backtrack fuel' dp ref_words hyp_words i (j - 1) (s, d, ins + 1)
        else backtrack fuel' dp ref_words hyp_words (i - 1) j (s, d + 1, ins)
      else sdi
  end.

Definition _edit_distance (ref_words hyp_words : list string) : nat * nat * nat :=
  let n := length ref_words in
  let m := length hyp_words in
  let dp := fill_dp ref_words hyp_words in
  backtrack (n + m) dp ref_words hyp_words n m (0, 0, 0).

(** [s.strip().split() if s.strip() else []]. *)
Definition words (s : string) : list string :=
  if Py.str_truthy (Py.strip s) then Py.split (Py.strip s) else [].

(** The value returned is a [float]: [0.0], [float('inf')] or the
    quotient, kept exact. *)
Definition wer (reference hypothesis : string) : pyfloat :=
  let ref_words := words reference in
  let hyp_words := words hypothesis in
  if (length ref_words =? 0) then
    if (length hyp_words =? 0) then FRat 0
    else FInf false
  else
    let '(s, d, ins) := _edit_distance ref_words hyp_words in
    FRat (Z.of_nat (s + d + ins) # Pos.of_nat (length ref_words)).

(** Empty or made of whitespace only. *)
Definition blank (s : string) : bool :=
  forallb Py.is_space (list_ascii_of_string s).

End Wer.

Definition initial_state : state :=
  {| history := []; requests := []; spoken := [] |}.

Inductive exit := Exited | Crashed (e : exn).

(** ** Checking the model directory ([verify_model] of [tts_stt.py]) *)

Fixpoint ends_with_slash (s : string) : bool :=
  match s with
  | EmptyString => false
  | String c EmptyString => Ascii.eqb c "/"%char
  | String _ s' => ends_with_slash s'
  end.

(** [os.path.join(a, b)] for a component [b] that is not absolute
    (POSIX). *)
Definition path_join (a b : string) : string :=
  if negb (Py.str_truthy a) || ends_with_slash a then a +:+ b
  else a +:+ "/" +:+ b.

(** The files one of which a model directory is expected to hold. *)
Definition candidates (abs_path : string) : list string :=
  [path_join (path_join abs_path "am") "final.mdl";
   path_join abs_path "final.mdl";
   path_join (path_join abs_path "graph") "Gr.fst";
   path_join (path_join abs_path "ivector") "final.ie"].

(** [fs] is [os.path.exists], [abspath] is [os.path.abspath]; the text
    of the error message is left out. *)
Definition verify_model (fs : string -> bool) (abspath : string -> string)
    (path : string) : res unit :=
  let abs_path := abspath path in
  if negb (fs abs_path) then Raise FileNotFoundError
  else
    let missing := List.filter (fun c => negb (fs c)) (candidates abs_path) in
    if (length missing =? length (candidates abs_path))%nat
    then Raise FileNotFoundError
    else
      let words_path := path_join (path_join abs_path "graph") "words.txt" in
      if negb (fs words_path) then Raise FileNotFoundError
      else Ret tt.

(** A directory tree given by the list of its paths. *)
Definition tree (paths : list string) (p : string) : bool :=
  existsb (String.eqb p) paths.

(** ** Notions used to state further properties *)

(** An event that keeps [listen_once] listening: a frame that is not
    final, or an empty queue before the timeout. *)
Definition quiet (timeout : option Q) (start : Q) (ev : queue_get) : bool :=
  match ev with
  | Frame _ None => true
  | Empty now => negb (timed_out timeout start now)
  | _ => false
  end.

(** The same world with a TTS engine that never fails. *)
Definition silence_tts (io : turn_io) : turn_io :=
  {| mic := mic io; service := service io; tts := fun _ => None |}.

(** [tts_say] raises nothing but [Exception]s. *)
Definition tts_recoverable (io : turn_io) : Prop :=
  forall text e, tts io text = Some e -> is_Exception e = true.

(** The history made of complete exchanges: a user turn and the reply. *)
Definition exchanges (turns : list (string * string))
  : list (gmap string string) :=
  concat (map (fun t => [user_turn t.1; assistant_turn t.2]) turns).

(** The edit distance between the first [i] words of the reference and
    the first [j] words of the hypothesis, by the recurrence of the
    dynamic programme. *)
Fixpoint lev (ref_words hyp_words : list string) (i : nat) : nat -> nat :=
  match i with
  | 0 => fun j => j
  | S i' =>
      fix row (j : nat) : nat :=
        match j with
        | 0 => S i'
        | S j' =>
            if Wer.same_word ref_words hyp_words i' j'
            then lev ref_words hyp_words i' j'
            else Nat.min (lev ref_words hyp_words i' j' + 1)
                   (Nat.min (row j' + 1) (lev ref_words hyp_words i' j + 1))
        end
  end.

(** A matrix of [n + 1] rows of [m + 1] cells. *)
Definition dp_shape (n m : nat) (dp : list (list nat)) : Prop :=
  length dp = n + 1 /\ Forall (fun row => length row = m + 1) dp.

(** The matrix when the loops of [_edit_distance] reach cell [(i, j)]:
    column 0, the rows above [i] and the cells of row [i] left of [j]
    hold the distance. *)
Definition dp_filled (ref_words hyp_words : list string) (i j : nat)
    (dp : list (list nat)) : Prop :=
  dp_shape (length ref_words) (length hyp_words) dp
  /\ forall i' j',
       i' <= length ref_words -> j' <= length hyp_words ->
       i' < i \/ (i' = i /\ j' < j) \/ j' = 0 ->
       Wer.get2 dp i' j' = lev ref_words hyp_words i' j'.

(** ** Inputs used in the examples *)

Definition fragments_hello : list string :=
  [jtext "{'response':'Hel'}"; jtext "{'response':'lo'}"; jtext "{'done':true}"].

Definition fragment_padded : list string := [jtext "{'response':' Hi'}"].

Definition heard_now (text : string) : microphone :=
  {| open_error := None; start := 0;
     events := [Frame 1 (Some (<["text" := text]> ∅))] |}.

Definition two_line_reply : string := "Hello there" +:+ nl_s +:+ "friend".

Definition raw_reply : string :=
  "User: hi Assistant:  Hello   there" +:+ nl_s +:+ nl_s +:+ nl_s +:+ "friend".

Definition echoed_envelope : string := jtext "User: {'response':'hi'}".

Definition envelope : string := jtext "{'result': 'Hi!'}".

(** Five exchanges whose replies have two lines each. *)
Definition chatty_history : list (gmap string string) :=
  concat (replicate 5 [user_turn "hi"; assistant_turn two_line_reply]).

(** A server that streams the given lines to every request; no [ollama]
    command is installed. *)
Definition streaming (ls : list string) : backend :=
  {| post := fun _ _ => Response true (map Line ls);
     run := fun _ _ => RunRaises FileNotFoundError |}.

(** A server that declares no charset, so that the lines arrive
    undecoded; no [ollama] command is installed. *)
Definition streaming_bytes (ls : list string) : backend :=
  {| post := fun _ _ =>
       Response true (map (fun raw => BytesLine (list_byte_of_string raw)) ls);
     run := fun _ _ => RunRaises FileNotFoundError |}.

(** A control line ahead of the fragments. *)
Definition fragments_after_control_line : list string :=
  ["ping"; jtext "{'response':'Hello'}"; jtext "{'done':true}"].

(** A server whose stream breaks after one fragment, and an [ollama]
    command that prints [ok]. *)
Definition partial_then_broken : backend :=
  {| post := fun _ _ =>
       Response true [Line (jtext "{'response':'par'}"); Broken RequestException];
     run := fun _ _ => Completed 0 "ok" "" |}.

(** A server whose stream breaks behind the [done] fragment. *)
Definition hello_then_broken : backend :=
  {| post := fun _ _ =>
       Response true (map Line fragments_hello ++ [Broken RequestException]);
     run := fun _ _ => RunRaises FileNotFoundError |}.


(** No server, and an [ollama] command that prints on standard error
    only. *)
Definition down_cli_stderr : backend :=
  {| post := fun _ _ => PostRaises RequestException;
     run := fun _ _ => Completed 0 "  " " pulling model " |}.

(** No server, and an [ollama] command that prints [ok]. *)
Definition down_cli_ok : backend :=
  {| post := fun _ _ => PostRaises RequestException;
     run := fun _ _ => Completed 0 "ok" "" |}.

(** No server, and an [ollama] process that does not end within 60 s. *)
Definition down_cli_timeout : backend :=
  {| post := fun _ _ => PostRaises RequestException;
     run := fun _ _ => RunRaises TimeoutExpired |}.

Definition default_args : args :=
  {| timeout := None; ollama_model := "tinyllama:1.1b"; no_clean := false |}.

Definition io_cli_timeout : turn_io :=
  {| mic := heard_now "hello";
     service := down_cli_timeout;
     tts := fun _ => None |}.

(** The user presses Ctrl+C while the assistant listens. *)
Definition io_interrupted : turn_io :=
  {| mic := {| open_error := None; start := 0;
               events := [Frame 1 None] ++ Interrupt KeyboardInterrupt :: [] |};
     service := streaming fragments_hello;
     tts := fun _ => None |}.

(** A turn that is heard and answered, with a TTS engine that fails. *)
Definition io_hello_tts_fails : turn_io :=
  {| mic := heard_now "hello";
     service := streaming fragments_hello;
     tts := fun _ => Some OSError |}.

(** A server that answers with a role label only. *)
Definition io_label_only : turn_io :=
  {| mic := heard_now "hello";
     service := streaming [jtext "{'response':'Assistant:'}"];
     tts := fun _ => None |}.

(** The user presses Ctrl+C while the request is sent. *)
Definition io_interrupted_request : turn_io :=
  {| mic := heard_now "hello";
     service := {| post := fun _ _ => PostRaises KeyboardInterrupt;
                   run := fun _ _ => Completed 0 "ok" "" |};
     tts := fun _ => None |}.

Definition io_silence : turn_io :=
  {| mic := heard_now "";
     service := streaming fragments_hello;
     tts := fun _ => None |}.

Section Assistant.

(** [json.loads] of a [str]: [None] when it raises.  [py_repr]:
    [str(v)] for a decoded value [v] that is not a string.
    [json_loads_bytes]: [json.loads] of a [bytes] (which it decodes
    before parsing), [None] when it raises. *)
Variable json_loads : string -> option json.
Variable py_repr : json -> string.
Variable json_loads_bytes : list Byte.byte -> option json.

(** [json.loads(raw)] for a line. *)
Definition loads (raw : text) : option json :=
  match raw with
  | Str s => json_loads s
  | Bytes b => json_loads_bytes b
  end.

Definition py_str (v : json) : string :=
  match v with
  | JStr s => s
  | _ => py_repr v
  end.

(** The [for raw in resp.iter_lines(...)] loop, [pieces] being the list
    built so far; it ends at the end of the body, at a [break], or by
    raising. *)
Fixpoint read_fragments (body : list chunk) (pieces : list text)
  : res (list text) :=
  match body with
  | [] => Ret pieces
  | Broken e :: _ => Raise e
  | Got raw :: rest =>
      if negb (text_truthy raw) then read_fragments rest pieces
      else
        match loads raw with
        | None => read_fragments rest (pieces ++ [raw])
        | Some obj =>
            let pieces1 :=
              match as_dict obj with
              | Some d =>
                  match dict_get "response" d with
                  | Some v =>
                      let part := if truthy v then v else JStr "" in
                      pieces ++ [Str (py_str part)]
                  | None => pieces
                  end
              | None => pieces
              end in
            let done :=
              match as_dict obj with
              | Some d =>
                  match dict_get "done" d with
                  | Some v => truthy v
                  | None => false
                  end
              | None => false
              end in
            if done then Ret pieces1 else read_fragments rest pieces1
        end
  end.

Definition query_ollama_http (b : backend) (prompt model : string) : res string :=
  match post b model prompt with
  | PostRaises e => Raise e
  | Response status_ok body =>
      if status_ok then
        match read_fragments body [] with
        | Ret pieces =>
            match join_pieces pieces with
            | Ret reply => Ret (Py.strip reply)
            | Raise e => Raise e
            end
        | Raise e => Raise e
        end
      else Raise HTTPError
  end.

Definition query_ollama (b : backend) (prompt model : string) : res string :=
  match query_ollama_http b prompt model with
  | Ret reply => Ret reply
  | Raise e => if is_Exception e then query_ollama_cli b prompt model else Raise e
  end.

Definition envelope_keys : list string := ["response"; "output"; "text"; "result"].

(** The [for k in (...)] loop: the first key present with a string value. *)
Fixpoint first_str_key (keys : list string) (d : list (string * json))
  : option string :=
  match keys with
  | [] => None
  | k :: ks =>
      match dict_get k d with
      | Some (JStr s) => Some s
      | _ => first_str_key ks d
      end
  end.

(** The [try: obj = json.loads(text) ... except Exception: pass] block. *)
Definition unwrap_envelope (text : string) : string :=
  match json_loads text with
  | Some (JObj d) =>
      match first_str_key envelope_keys d with
      | Some s => s
      | None => text
      end
  | _ => text
  end.

(** The four [re.sub] calls and the final [strip]. *)
Definition scrub (text : string) : string :=
  let text := Re.sub Re.line_label "" text in
  let text := Re.sub Re.inline_label "" text in
  let text := Re.sub Re.newlines nl_s text in
  let text := Re.sub Re.blanks " " text in
  Py.strip text.

Definition clean_reply (text : string) : string :=
  if negb (Py.str_truthy text) then text
  else scrub (unwrap_envelope text).

(** The body of the loop of [main] once [listen_once] has returned a
    non-empty [user_text].  First the user turn is appended; the call
    of [query_ollama] with the prompt built from the new history is
    entered in the log. *)
Definition begin_turn (a : args) (user_text : string) (st : state) : state :=
  let history1 := history st ++ [user_turn user_text] in
  let prompt := build_prompt history1 user_text in
  {| history := history1;
     requests := requests st ++ [(prompt, ollama_model a)];
     spoken := spoken st |}.

(** Then the reply is completed, cleaned, recorded and spoken.
    [clean_reply] is total, so the [except Exception: pass] around it is
    never entered; an [Exception] of [tts_say] is printed and dropped. *)
Definition record_reply (a : args) (io : turn_io) (st : state) (reply : string)
  : res state :=
  let reply := if negb (Py.str_truthy reply) then apology else reply in
  let reply := if negb (no_clean a) then clean_reply reply else reply in
  let st' := {| history := history st ++ [assistant_turn reply];
                requests := requests st;
                spoken := spoken st ++ [reply] |} in
  match tts io reply with
  | Some e => if is_Exception e then Ret st' else Raise e
  | None => Ret st'
  end.

Definition respond (a : args) (io : turn_io) (user_text : string) (st : state)
  : res state :=
  if negb (Py.str_truthy user_text) then Ret st
  else
    let st1 := begin_turn a user_text st in
    let prompt := build_prompt (history st1) user_text in
    match query_ollama (service io) prompt (ollama_model a) with
    | Raise e => Raise e
    | Ret reply => record_reply a io st1 reply
    end.

(** One iteration of [while True] in [main]; [None] while it listens. *)
Definition iteration (a : args) (io : turn_io) (st : state)
  : option (res state) :=
  match listen_once (timeout a) (mic io) with
  | None => None
  | Some (Raise e) => Some (Raise e)
  | Some (Ret user_text) => Some (respond a io user_text st)
  end.

(** The loop of [main] over the iterations the world allows. *)
Fixpoint main_loop (a : args) (ios : list turn_io) (st : state)
  : option (res state) :=
  match ios with
  | [] => Some (Ret st)
  | io :: rest =>
      match iteration a io st with
      | Some (Ret st') => main_loop a rest st'
      | other => other
      end
  end.

(** [main]: the loop starts from an empty history; [KeyboardInterrupt]
    ends it cleanly, any other exception leaves the program. *)
Definition main (a : args) (ios : list turn_io) : option exit :=
  match main_loop a ios initial_state with
  | None => None
  | Some (Ret _) => None      (* [while True] goes on *)
  | Some (Raise e) =>
      if is_KeyboardInterrupt e then Some Exited else Some (Crashed e)
  end.

(** ** The reply the description promises for a stream of fragments

    These definitions follow the words of the description, not the code:
    each line contributes a text, the lines count up to the first [done]
    fragment, and the contributions are concatenated in order. *)

(** The text of a [response] field. *)
Definition spec_field_text (v : json) : string :=
  if truthy v then py_str v else "".

(** What one line contributes: the [response] field of a JSON object,
    the line itself when it is not JSON. *)
Definition spec_fragment_text (raw : string) : string :=
  if negb (Py.str_truthy raw) then ""
  else
    match json_loads raw with
    | None => raw
    | Some (JObj d) =>
        match dict_get "response" d with
        | Some v => spec_field_text v
        | None => ""
        end
    | Some _ => ""
    end.

(** The line is a fragment whose [done] flag is true. *)
Definition spec_fragment_done (raw : string) : bool :=
  Py.str_truthy raw &&
  match json_loads raw with
  | Some (JObj d) =>
      match dict_get "done" d with
      | Some v => truthy v
      | None => false
      end
  | _ => false
  end.

(** The lines up to the first [done] fragment, or all of them. *)
Fixpoint spec_upto_done (lines : list string) : list string :=
  match lines with
  | [] => []
  | raw :: rest =>
      if spec_fragment_done raw then [raw] else raw :: spec_upto_done rest
  end.

Definition spec_reply (lines : list string) : string :=
  Py.join "" (map spec_fragment_text (spec_upto_done lines)).

(** ** Lines of either kind *)

(** The line is a fragment whose [done] flag is true. *)
Definition fragment_done (raw : text) : bool :=
  text_truthy raw &&
  match loads raw with
  | Some (JObj d) =>
      match dict_get "done" d with
      | Some v => truthy v
      | None => false
      end
  | _ => false
  end.

(** What one line adds to [pieces]. *)
Definition fragment_pieces (raw : text) : list text :=
  if negb (text_truthy raw) then []
  else
    match loads raw with
    | None => [raw]
    | Some (JObj d) =>
        match dict_get "response" d with
        | Some v => [Str (spec_field_text v)]
        | None => []
        end
    | Some _ => []
    end.

(** The lines up to the first [done] fragment, or all of them. *)
Fixpoint upto_done (lines : list text) : list text :=
  match lines with
  | [] => []
  | raw :: rest =>
      if fragment_done raw then [raw] else raw :: upto_done rest
  end.

(** The ways the primary transport fails before a terminator is seen:
    the request raises, the status is an error, or reading the body
    raises behind lines none of which is a [done] fragment. *)
Definition transport_fails (call : http_call) : Prop :=
  match call with
  | PostRaises e => is_Exception e = true
  | Response false _ => True
  | Response true body =>
      exists pre e rest,
        body = map Got pre ++ Broken e :: rest
        /\ is_Exception e = true
        /\ forallb (fun raw => negb (fragment_done raw)) pre = true
  end.

(** * Properties *)

(** ** Strings *)

Lemma sapp_nil_l (s : string) : "" +:+ s = s.
Proof. reflexivity. Qed.

Lemma sapp_cons (c : ascii) (s t : string) :
  String c s +:+ t = String c (s +:+ t).
Proof. reflexivity. Qed.

Lemma sapp_nil_r (s : string) : s +:+ "" = s.
Proof.
  induction s as [|c s IH]; [reflexivity | now rewrite sapp_cons, IH].
Qed.

Lemma sapp_assoc (a b c : string) : (a +:+ b) +:+ c = a +:+ b +:+ c.
Proof.
  induction a as [|x a IH]; [reflexivity | now rewrite !sapp_cons, IH].
Qed.

Lemma join_empty_cons (p : string) (ps : list string) :
  Py.join "" (p :: ps) = p +:+ Py.join "" ps.
Proof.
  destruct ps as [|q ps]; simpl.
  - now rewrite sapp_nil_r.
  - reflexivity.
Qed.

Lemma join_empty_app (a b : list string) :
  Py.join "" (a ++ b) = Py.join "" a +:+ Py.join "" b.
Proof.
  induction a as [|x a IH].
  - reflexivity.
  - rewrite <- app_comm_cons, !join_empty_cons, IH. now rewrite sapp_assoc.
Qed.

(** ** The generation client *)

Lemma join_empty_snoc (ps : list string) (x : string) :
  Py.join "" (ps ++ [x]) = Py.join "" ps +:+ x.
Proof. rewrite join_empty_app. reflexivity. Qed.

(** [''.join] of [str] items. *)
Lemma join_pieces_strs (l : list string) :
  join_pieces (map Str l) = Ret (Py.join "" l).
Proof.
  induction l as [|x l IH]; [reflexivity|].
  cbn [map join_pieces]. now rewrite IH, join_empty_cons.
Qed.

Lemma join_pieces_app (a b : list text) :
  join_pieces (a ++ b)
  = match join_pieces a with
    | Ret x =>
        match join_pieces b with
        | Ret y => Ret (x +:+ y)
        | Raise e => Raise e
        end
    | Raise e => Raise e
    end.
Proof.
  induction a as [|[x|x] a IH]; cbn [app join_pieces].
  - destruct (join_pieces b); reflexivity.
  - rewrite IH. destruct (join_pieces a); [|reflexivity].
    destruct (join_pieces b); [|reflexivity]. now rewrite sapp_assoc.
  - reflexivity.
Qed.

Lemma join_pieces_raises (ps : list text) (e : exn) :
  join_pieces ps = Raise e -> e = TypeError.
Proof.
  induction ps as [|[x|x] ps IH]; cbn [join_pieces].
  - discriminate.
  - destruct (join_pieces ps); [discriminate|]. intros [= <-]. now apply IH.
  - now intros [= <-].
Qed.

Lemma join_pieces_bytes (a b : list text) (raw : list Byte.byte) :
  join_pieces (a ++ Bytes raw :: b) = Raise TypeError.
Proof.
  induction a as [|[x|x] a IH]; cbn [app join_pieces]; [reflexivity| |reflexivity].
  now rewrite IH.
Qed.

(** One pass of the loop adds the pieces of the line and stops exactly
    at a [done] fragment. *)
Lemma read_fragments_step (raw : text) (rest : list chunk) (pieces : list text) :
  read_fragments (Got raw :: rest) pieces
  = if fragment_done raw then Ret (pieces ++ fragment_pieces raw)
    else read_fragments rest (pieces ++ fragment_pieces raw).
Proof.
  unfold fragment_pieces, fragment_done. cbn [read_fragments].
  destruct (text_truthy raw); cbn [negb andb]; [|now rewrite app_nil_r].
  destruct (loads raw) as [obj|]; [|reflexivity].
  destruct obj as [| | | | | |d]; cbn [as_dict]; try now rewrite app_nil_r.
  unfold spec_field_text.
  destruct (dict_get "response" d) as [v|].
  - destruct (truthy v); reflexivity.
  - now rewrite app_nil_r.
Qed.

(** The loop over a body without transport error returns the pieces of
    the lines up to the first [done] fragment. *)
Lemma read_fragments_lines (ls : list text) : forall pieces,
  read_fragments (map Got ls) pieces
  = Ret (pieces ++ concat (map fragment_pieces (upto_done ls))).
Proof.
  induction ls as [|raw ls IH]; intros pieces.
  - cbn. now rewrite app_nil_r.
  - cbn [map upto_done]. rewrite read_fragments_step.
    destruct (fragment_done raw).
    + cbn [map concat]. now rewrite app_nil_r.
    + rewrite IH. cbn [map concat]. now rewrite <- app_assoc.
Qed.

(** Nothing behind a [done] fragment is read. *)
Lemma read_fragments_done (ls : list text) (rest : list chunk) :
  existsb fragment_done ls = true ->
  forall pieces,
    read_fragments (map Got ls ++ rest) pieces
    = read_fragments (map Got ls) pieces.
Proof.
  induction ls as [|raw ls IH]; intros H pieces; [discriminate H|].
  cbn [map app]. rewrite !read_fragments_step. cbn [existsb] in H.
  destruct (fragment_done raw); [reflexivity|]. now apply IH.
Qed.

(** A transport error met before any [done] fragment is raised. *)
Lemma read_fragments_broken (pre : list text) (e : exn) (post : list chunk) :
  forallb (fun raw => negb (fragment_done raw)) pre = true ->
  forall pieces,
    read_fragments (map Got pre ++ Broken e :: post) pieces = Raise e.
Proof.
  induction pre as [|raw pre IH]; intros Hpre pieces; [reflexivity|].
  cbn [map app]. rewrite read_fragments_step. cbn [forallb] in Hpre.
  apply andb_prop in Hpre. destruct Hpre as [Hraw Hpre].
  destruct (fragment_done raw); [discriminate Hraw|]. now apply IH.
Qed.

Lemma upto_done_app (pre ls : list text) :
  forallb (fun raw => negb (fragment_done raw)) pre = true ->
  upto_done (pre ++ ls) = pre ++ upto_done ls.
Proof.
  induction pre as [|raw pre IH]; intros Hpre; [reflexivity|].
  cbn [forallb] in Hpre. apply andb_prop in Hpre. destruct Hpre as [Hraw Hpre].
  cbn [app upto_done]. destruct (fragment_done raw); [discriminate Hraw|].
  now rewrite IH.
Qed.

(** Decoded lines: the pieces are the contributions the description
    names. *)
Lemma upto_done_strs (ls : list string) :
  upto_done (map Str ls) = map Str (spec_upto_done ls).
Proof.
  induction ls as [|raw ls IH]; [reflexivity|]. cbn [map upto_done spec_upto_done].
  change (fragment_done (Str raw)) with (spec_fragment_done raw).
  destruct (spec_fragment_done raw); [reflexivity|]. cbn [map]. now rewrite IH.
Qed.

Lemma fragment_pieces_str (raw : string) :
  join_pieces (fragment_pieces (Str raw)) = Ret (spec_fragment_text raw).
Proof.
  unfold fragment_pieces, spec_fragment_text. cbn [text_truthy loads].
  destruct (Py.str_truthy raw); cbn [negb]; [|reflexivity].
  destruct (json_loads raw) as [obj|]; [|cbn; now rewrite sapp_nil_r].
  destruct obj as [| | | | | |d]; try reflexivity.
  destruct (dict_get "response" d); [cbn; now rewrite sapp_nil_r | reflexivity].
Qed.

Lemma join_pieces_lines (ls : list string) :
  join_pieces (concat (map fragment_pieces (map Str ls)))
  = Ret (Py.join "" (map spec_fragment_text ls)).
Proof.
  induction ls as [|raw ls IH]; [reflexivity|].
  cbn [map concat]. rewrite join_pieces_app, fragment_pieces_str, IH.
  now rewrite join_empty_cons.
Qed.

Lemma query_ollama_http_lines (b : backend) (prompt model : string)
    (ls : list string) :
  post b model prompt = Response true (map Line ls) ->
  query_ollama_http b prompt model = Ret (Py.strip (spec_reply ls)).
Proof.
  intros Hpost. unfold query_ollama_http, spec_reply. rewrite Hpost.
  change (map Line ls) with (map (fun raw => Got (Str raw)) ls).
  rewrite <- (map_map Str Got), read_fragments_lines, upto_done_strs.
  cbn [app]. now rewrite join_pieces_lines.
Qed.

(** A stream that breaks before any [done] fragment makes the primary
    path raise. *)
Lemma query_ollama_http_broken (b : backend) (prompt model : string)
    (pre : list text) (e : exn) (rest : list chunk) :
  post b model prompt = Response true (map Got pre ++ Broken e :: rest) ->
  forallb (fun raw => negb (fragment_done raw)) pre = true ->
  query_ollama_http b prompt model = Raise e.
Proof.
  intros Hpost Hpre. unfold query_ollama_http. rewrite Hpost.
  now rewrite (read_fragments_broken pre e rest Hpre).
Qed.

(** A transport that fails makes the primary path raise an
    [Exception]. *)
Lemma query_ollama_http_fails (b : backend) (prompt model : string) :
  transport_fails (post b model prompt) ->
  exists e, query_ollama_http b prompt model = Raise e /\ is_Exception e = true.
Proof.
  unfold query_ollama_http.
  destruct (post b model prompt) as [e|[|] body]; cbn [transport_fails].
  - intros He. now exists e.
  - intros (pre & e & rest & -> & He & Hpre). exists e.
    now rewrite (read_fragments_broken pre e rest Hpre).
  - intros _. now exists HTTPError.
Qed.

(** When the primary path raises an [Exception], the reply is whatever
    the fallback gives; nothing of the body read so far is in it. *)
Lemma query_ollama_fallback (b : backend) (prompt model : string) (e : exn) :
  query_ollama_http b prompt model = Raise e ->
  is_Exception e = true ->
  query_ollama b prompt model = query_ollama_cli b prompt model.
Proof.
  intros Hhttp He. unfold query_ollama. now rewrite Hhttp, He.
Qed.

Lemma query_ollama_primary (b : backend) (prompt model reply : string) :
  query_ollama_http b prompt model = Ret reply ->
  query_ollama b prompt model = Ret reply.
Proof. intros H. unfold query_ollama. now rewrite H. Qed.

(** ** The dialogue loop *)

Lemma respond_empty (a : args) (io : turn_io) (st : state) :
  respond a io "" st = Ret st.
Proof. reflexivity. Qed.

Lemma respond_nonempty (a : args) (io : turn_io) (u : string) (st : state) :
  u <> "" ->
  respond a io u st
  = match query_ollama (service io)
            (build_prompt (history st ++ [user_turn u]) u) (ollama_model a) with
    | Raise e => Raise e
    | Ret reply => record_reply a io (begin_turn a u st) reply
    end.
Proof.
  intros Hu. unfold respond. destruct u; [congruence | reflexivity].
Qed.

Lemma iteration_heard (a : args) (io : turn_io) (st : state) (u : string) :
  listen_once (timeout a) (mic io) = Some (Ret u) ->
  iteration a io st = Some (respond a io u st).
Proof. intros H. unfold iteration. now rewrite H. Qed.

End Assistant.

(** ** The prompt *)

Lemma foldl_render (hs : list (gmap string string)) : forall acc,
  foldl (fun out m => out ++ [render m]) acc hs = acc ++ map render hs.
Proof.
  induction hs as [|m hs IH]; intros acc; cbn [foldl map].
  - now rewrite app_nil_r.
  - rewrite IH, <- app_assoc. reflexivity.
Qed.

Lemma build_prompt_entries (h : list (gmap string string)) (u : string) :
  build_prompt h u
  = Py.join nl_s ((map render (last_slice 10 h) ++ ["User: " +:+ u])
                  ++ ["Assistant:"]).
Proof. unfold build_prompt. now rewrite foldl_render. Qed.

Lemma last_slice_length {A} (n : nat) (l : list A) :
  length (last_slice n l) = Nat.min n (length l).
Proof. unfold last_slice. rewrite length_drop. lia. Qed.

Lemma last_slice_suffix {A} (n : nat) (l : list A) :
  take (length l - n) l ++ last_slice n l = l.
Proof. apply take_drop. Qed.

Lemma last_slice_snoc {A} (n : nat) (l : list A) (x : A) :
  last_slice (S n) (l ++ [x]) = last_slice n l ++ [x].
Proof.
  unfold last_slice. rewrite length_app. cbn [length].
  replace (length l + 1 - S n) with (length l - n) by lia.
  rewrite drop_app_le by lia. reflexivity.
Qed.

Lemma render_user_turn (u : string) : render (user_turn u) = "User: " +:+ u.
Proof.
  unfold render, user_turn.
  rewrite lookup_insert_eq.
  rewrite lookup_insert_ne by discriminate.
  rewrite lookup_insert_eq. reflexivity.
Qed.

Lemma render_assistant_turn (t : string) :
  render (assistant_turn t) = "Assistant: " +:+ t.
Proof.
  unfold render, assistant_turn.
  rewrite lookup_insert_eq.
  rewrite lookup_insert_ne by discriminate.
  rewrite lookup_insert_eq. reflexivity.
Qed.

(** The prompt of a turn: the user text is its own last history line. *)
Lemma build_prompt_after_append (h : list (gmap string string)) (u : string) :
  build_prompt (h ++ [user_turn u]) u
  = Py.join nl_s (map render (last_slice 9 h)
                  ++ ["User: " +:+ u; "User: " +:+ u; "Assistant:"]).
Proof.
  rewrite build_prompt_entries, last_slice_snoc, map_app. cbn [map].
  rewrite render_user_turn, <- !app_assoc. reflexivity.
Qed.

(** ** Lines of a text *)

Lemma lines_of_app_nl (a b : string) : forall cur,
  lines_of cur (a +:+ nl_s +:+ b) = lines_of cur a ++ lines_of "" b.
Proof.
  induction a as [|c a IH]; intros cur.
  - reflexivity.
  - rewrite sapp_cons. cbn [lines_of].
    destruct (Ascii.eqb c Py.nl); rewrite IH; reflexivity.
Qed.

Lemma lines_of_no_nl (s : string) : forall cur,
  has_nl s = false -> lines_of cur s = [cur +:+ s].
Proof.
  induction s as [|c s IH]; intros cur H; cbn [lines_of has_nl] in *.
  - now rewrite sapp_nil_r.
  - apply orb_false_elim in H. destruct H as [Hc Hs].
    rewrite Hc, IH by exact Hs. now rewrite sapp_assoc.
Qed.

Lemma lines_join (x : string) (xs : list string) :
  lines (Py.join nl_s (x :: xs)) = concat (map lines (x :: xs)).
Proof.
  revert x. induction xs as [|y xs IH]; intros x.
  - cbn. now rewrite app_nil_r.
  - change (Py.join nl_s (x :: y :: xs))
      with (x +:+ nl_s +:+ Py.join nl_s (y :: xs)).
    unfold lines at 1. rewrite lines_of_app_nl.
    fold (lines (Py.join nl_s (y :: xs))). rewrite IH. reflexivity.
Qed.

Lemma lines_join_flat (xs : list string) :
  xs <> [] ->
  forallb (fun e => negb (has_nl e)) xs = true ->
  lines (Py.join nl_s xs) = xs.
Proof.
  destruct xs as [|x xs]; [congruence|]. intros _ H.
  rewrite lines_join. clear -H.
  induction (x :: xs) as [|y ys IH]; [reflexivity|].
  cbn [forallb map concat] in *. apply andb_prop in H. destruct H as [Hy Hys].
  rewrite IH by exact Hys. unfold lines.
  rewrite lines_of_no_nl by (now destruct (has_nl y)). reflexivity.
Qed.

(** ** Listening *)

Lemma listen_loop_frames (t : option Q) (s : Q) (times : list Q) :
  listen_loop t s (map (fun now => Frame now None) times) = None.
Proof. induction times as [|now times IH]; [reflexivity | exact IH]. Qed.

Lemma listen_loop_zero_timeout (s : Q) (times : list Q) :
  listen_loop (Some 0%Q) s (map Empty times) = None.
Proof. induction times as [|now times IH]; [reflexivity | exact IH]. Qed.

Example listen_once_frames_past_timeout :
  listen_once (Some 1%Q)
    {| open_error := None; start := 0;
       events := map (fun now => Frame now None)
                     [1 # 2; 1; 3 # 2; 2; 5 # 2; 3; 60]%Q |}
  = None.
Proof. reflexivity. Qed.

(** On an empty queue the timeout is honoured. *)
Lemma listen_loop_empty_late (t s now : Q) (rest : list queue_get) :
  (~ t == 0)%Q -> (t < now - s)%Q ->
  listen_loop (Some t) s (Empty now :: rest) = Some (Ret "").
Proof.
  intros Ht Hlate. cbn [listen_loop]. unfold timed_out.
  destruct (Qeq_bool t 0) eqn:E0.
  - apply Qeq_bool_eq in E0. contradiction.
  - destruct (Qle_bool (now - s) t) eqn:Ele; [|reflexivity].
    apply Qle_bool_iff in Ele. apply Qle_not_lt in Ele. contradiction.
Qed.

(** ** Words of a text *)

Lemma lstrip_l_blank (l : list ascii) :
  forallb Py.is_space l = true -> Py.lstrip_l l = [].
Proof.
  induction l as [|c l IH]; [reflexivity|]. cbn [forallb Py.lstrip_l].
  intros H. apply andb_prop in H. destruct H as [-> Hl]. now apply IH.
Qed.

Lemma lstrip_l_keeps (l : list ascii) :
  forallb Py.is_space l = false ->
  exists c r, Py.lstrip_l l = c :: r /\ Py.is_space c = false.
Proof.
  induction l as [|c l IH]; [discriminate|]. cbn [forallb Py.lstrip_l].
  destruct (Py.is_space c) eqn:Hc; cbn [andb]; intros H.
  - now apply IH.
  - exists c, l. now split.
Qed.

Lemma rstrip_l_keeps (l : list ascii) (c : ascii) :
  Py.is_space c = false ->
  exists r, Py.rstrip_l (c :: l) = c :: r.
Proof.
  intros Hc. cbn [Py.rstrip_l]. rewrite Hc.
  destruct (Py.rstrip_l l); eauto.
Qed.

Lemma split_l_nonempty (l : list ascii) : forall cur,
  cur <> [] \/ forallb Py.is_space l = false ->
  Py.split_l cur l <> [].
Proof.
  induction l as [|c l IH]; intros cur H; cbn [Py.split_l forallb] in *.
  - destruct H as [H|H]; [|discriminate]. now destruct cur.
  - destruct (Py.is_space c) eqn:Hc; cbn [andb] in H.
    + destruct cur as [|x cur]; [|discriminate].
      apply IH. destruct H as [H|H]; [congruence | now right].
    + apply IH. left. discriminate.
Qed.

Lemma words_blank (s : string) : Wer.blank s = true -> Wer.words s = [].
Proof.
  unfold Wer.blank, Wer.words, Py.strip, Py.strip_l. intros H.
  now rewrite lstrip_l_blank.
Qed.

Lemma words_not_blank (s : string) : Wer.blank s = false -> Wer.words s <> [].
Proof.
  unfold Wer.blank, Wer.words, Py.strip, Py.strip_l, Py.split. intros H.
  destruct (lstrip_l_keeps _ H) as (c & r & -> & Hc).
  destruct (rstrip_l_keeps r c Hc) as (r' & ->).
  cbn [string_of_list_ascii Py.str_truthy].
  change (String c (string_of_list_ascii r'))
    with (string_of_list_ascii (c :: r')).
  rewrite list_ascii_of_string_of_list_ascii.
  intros E. apply map_eq_nil in E. revert E.
  apply split_l_nonempty. right. cbn [forallb]. now rewrite Hc.
Qed.

(** ** Character classes *)

Lemma space_not_word (c : ascii) :
  Py.is_space c = true -> Py.is_word c = false.
Proof.
  destruct c as [[] [] [] [] [] [] [] []]; vm_compute;
    intros H; solve [reflexivity | discriminate H].
Qed.

Lemma is_nl_space (c : ascii) : Re.is_nl c = true -> Py.is_space c = true.
Proof. unfold Re.is_nl. intros H. apply Ascii.eqb_eq in H. now subst. Qed.

Lemma is_blank_space (c : ascii) : Re.is_blank c = true -> Py.is_space c = true.
Proof.
  unfold Re.is_blank. intros H. apply orb_prop in H.
  destruct H as [H|H]; apply Ascii.eqb_eq in H; now subst.
Qed.

(** ** Prefixes and runs *)

Lemma is_prefix_spec (p l : list ascii) :
  Re.is_prefix p l = true <-> exists r, l = p ++ r.
Proof.
  revert l. induction p as [|a p IH]; intros l; cbn [Re.is_prefix].
  - split; [intros _; now exists l | reflexivity].
  - destruct l as [|b l].
    + split; [discriminate | intros (r & Hr); discriminate Hr].
    + rewrite andb_true_iff, Ascii.eqb_eq, IH. split.
      * intros (-> & r & ->). now exists r.
      * intros (r & Hr). injection Hr as -> ->. split; [reflexivity | now exists r].
Qed.

Lemma is_prefix_app (p x y : list ascii) :
  Re.is_prefix p x = true -> Re.is_prefix p (x ++ y) = true.
Proof.
  rewrite !is_prefix_spec. intros (r & ->). exists (r ++ y).
  now rewrite app_assoc.
Qed.

Lemma existsb_transfer {A} (P Q : A -> bool) (W : list A) :
  (forall w, In w W -> Q w = true -> P w = true) ->
  existsb P W = false -> existsb Q W = false.
Proof.
  intros H HP. destruct (existsb Q W) eqn:HQ; [|reflexivity].
  apply existsb_exists in HQ. destruct HQ as (w & Hw & HQw).
  assert (existsb P W = true) by (apply existsb_exists; exists w; auto).
  congruence.
Qed.

Lemma span_len_drop (f : ascii -> bool) (l : list ascii) :
  Re.span_len f (drop (Re.span_len f l) l) = 0.
Proof.
  induction l as [|c l IH]; [reflexivity|]. cbn [Re.span_len].
  destruct (f c) eqn:Hc; cbn [drop Re.span_len]; [exact IH | now rewrite Hc].
Qed.

Lemma span_len_last (f : ascii -> bool) (l : list ascii) (k : nat) :
  Re.span_len f l = S k ->
  exists x, last (take (S k) l) = Some x /\ f x = true.
Proof.
  revert k. induction l as [|c l IH]; intros k; cbn [Re.span_len]; [discriminate|].
  destruct (f c) eqn:Hc; [|discriminate]. intros [= Hk].
  destruct k as [|k].
  - exists c. cbn. rewrite take_0. now split.
  - destruct (IH k Hk) as (x & Hx & Hfx). exists x. split; [|exact Hfx].
    change (take (S (S k)) (c :: l)) with (c :: take (S k) l).
    destruct (take (S k) l) as [|d t] eqn:Et; [discriminate Hx | exact Hx].
Qed.

(** ** Where the four patterns match *)

Lemma label_len_none (labels : list string) (l : list ascii) :
  Re.label_len labels l = None
  <-> existsb (fun w => Re.is_prefix w l) (map Re.colon labels) = false.
Proof.
  induction labels as [|L labels IH]; cbn [Re.label_len map existsb].
  - tauto.
  - fold (Re.colon L). destruct (Re.is_prefix (Re.colon L) l); cbn [orb].
    + split; discriminate.
    + exact IH.
Qed.

Lemma label_ws_none (labels : list string) (l : list ascii) :
  Re.label_ws labels l = None <-> Re.label_len labels l = None.
Proof.
  unfold Re.label_ws. destruct (Re.label_len labels l); split; congruence.
Qed.

Lemma label_len_some (labels : list string) (l : list ascii) (n : nat) :
  Re.label_len labels l = Some n ->
  exists L r, l = Re.colon L ++ r /\ n = length (Re.colon L).
Proof.
  induction labels as [|L labels IH]; cbn [Re.label_len]; [discriminate|].
  fold (Re.colon L). destruct (Re.is_prefix (Re.colon L) l) eqn:E.
  - intros [= <-]. apply is_prefix_spec in E. destruct E as (r & ->).
    now exists L, r.
  - exact IH.
Qed.

(** The last character of a match of [(?:...):\s*] is the colon or a
    whitespace character. *)
Lemma label_ws_last (labels : list string) (l : list ascii) (n : nat) :
  Re.label_ws labels l = Some n ->
  exists k x, n = S k /\ last (take n l) = Some x /\ Py.is_word x = false.
Proof.
  unfold Re.label_ws. destruct (Re.label_len labels l) as [m|] eqn:E; [|discriminate].
  intros [= <-]. destruct (label_len_some _ _ _ E) as (L & r & -> & ->).
  rewrite drop_app_length.
  assert (Hm : length (Re.colon L) = S (length (list_ascii_of_string L))).
  { unfold Re.colon. rewrite length_app. cbn. lia. }
  destruct (Re.span_len Py.is_space r) as [|j] eqn:Er.
  - exists (length (list_ascii_of_string L)), ":"%char.
    rewrite Nat.add_0_r, take_app_length. split; [exact Hm|].
    split; [|reflexivity]. unfold Re.colon. apply last_snoc.
  - destruct (span_len_last _ _ _ Er) as (x & Hx & Hsp).
    exists (length (list_ascii_of_string L) + S j), x.
    split; [lia|]. split; [|now apply space_not_word].
    rewrite take_app_add, last_app, Hx. reflexivity.
Qed.

Lemma label_words_shape (w : list ascii) :
  In w Re.label_words ->
  exists a L z, w = a :: L ++ [z] /\ Py.is_word a = true
                /\ forallb Py.is_word L = true.
Proof.
  intros [<-|[<-|[<-|[<-|[]]]]].
  - exists "U"%char, ["s"; "e"; "r"]%char, ":"%char. now vm_compute.
  - exists "A"%char, ["s"; "s"; "i"; "s"; "t"; "a"; "n"; "t"]%char, ":"%char.
    now vm_compute.
  - exists "A"%char, ["I"]%char, ":"%char. now vm_compute.
  - exists "S"%char, ["y"; "s"; "t"; "e"; "m"]%char, ":"%char. now vm_compute.
Qed.

Lemma detects_inline :
  Re.detects Re.inline_label Re.not_after_word Re.label_words.
Proof.
  intros prev l. unfold Re.inline_label, Re.hit.
  destruct (existsb (fun w => Re.is_prefix w l) Re.label_words) eqn:E.
  - assert (Hlen : Re.label_ws ["User"; "Assistant"; "AI"; "System"] l <> None).
    { rewrite label_ws_none, label_len_none. fold Re.label_words. congruence. }
    apply existsb_exists in E. destruct E as (w & Hw & Hp).
    destruct (label_words_shape w Hw) as (a & L & z & -> & Ha & _).
    destruct l as [|c l]; [discriminate Hp|].
    cbn [Re.is_prefix] in Hp. apply andb_prop in Hp. destruct Hp as [Hc _].
    apply Ascii.eqb_eq in Hc. subst c.
    unfold Re.at_boundary. rewrite Ha, andb_true_r.
    destruct prev as [p|]; cbn [Re.not_after_word xorb].
    + destruct (Py.is_word p); cbn [negb xorb]; split; congruence.
    + split; congruence.
  - assert (Hlen : Re.label_ws ["User"; "Assistant"; "AI"; "System"] l = None).
    { rewrite label_ws_none, label_len_none. exact E. }
    rewrite Hlen, andb_false_r. destruct (Re.at_boundary prev l); tauto.
Qed.

(** A match of the line-start pattern is a match of the inline one. *)
Lemma line_label_inline (prev : option ascii) (l : list ascii) :
  Re.inline_label prev l = None -> Re.line_label prev l = None.
Proof.
  intros H. apply detects_inline in H. unfold Re.line_label.
  destruct (Re.at_line_start prev) eqn:Hs; [|reflexivity].
  assert (Hg : Re.not_after_word prev = true).
  { destruct prev as [c|]; [|reflexivity]. cbn in Hs.
    apply Ascii.eqb_eq in Hs. now subst c. }
  unfold Re.hit in H. rewrite Hg in H. cbn [andb] in H.
  apply label_ws_none, label_len_none.
  revert H. unfold Re.label_words. cbn [map existsb].
  destruct (Re.is_prefix (Re.colon "User") l),
           (Re.is_prefix (Re.colon "Assistant") l),
           (Re.is_prefix (Re.colon "AI") l),
           (Re.is_prefix (Re.colon "System") l); cbn; congruence.
Qed.

Lemma detects_newlines : Re.detects Re.newlines Re.always Re.nl_words.
Proof.
  intros prev l. unfold Re.newlines, Re.run2, Re.hit, Re.always, Re.nl_words.
  cbn [andb existsb Re.is_prefix].
  destruct l as [|a [|b l]]; cbn [Re.span_len Re.is_prefix].
  - tauto.
  - unfold Re.is_nl. rewrite (Ascii.eqb_sym Py.nl a).
    destruct (Ascii.eqb a Py.nl); cbn; tauto.
  - unfold Re.is_nl. rewrite (Ascii.eqb_sym Py.nl a), (Ascii.eqb_sym Py.nl b).
    destruct (Ascii.eqb a Py.nl), (Ascii.eqb b Py.nl); cbn; split; congruence.
Qed.

Lemma detects_blanks : Re.detects Re.blanks Re.always Re.blank_words.
Proof.
  intros prev l. unfold Re.blanks, Re.run2, Re.hit, Re.always, Re.blank_words.
  cbn [andb existsb Re.is_prefix].
  destruct l as [|a [|b l]]; cbn [Re.span_len Re.is_prefix].
  - tauto.
  - unfold Re.is_blank.
    rewrite (Ascii.eqb_sym " " a), (Ascii.eqb_sym Py.tab a).
    destruct (Ascii.eqb a " "), (Ascii.eqb a Py.tab); cbn; tauto.
  - unfold Re.is_blank.
    rewrite (Ascii.eqb_sym " " a), (Ascii.eqb_sym Py.tab a),
            (Ascii.eqb_sym " " b), (Ascii.eqb_sym Py.tab b).
    destruct (Ascii.eqb a " "), (Ascii.eqb a Py.tab),
             (Ascii.eqb b " "), (Ascii.eqb b Py.tab); cbn; split; congruence.
Qed.

(** ** Texts without a match *)

Section Free.

Variable g : option ascii -> bool.
Variable W : list (list ascii).

Lemma free_cons (prev : option ascii) (c : ascii) (l : list ascii) :
  Re.free g W prev (c :: l)
  <-> Re.hit g W prev (c :: l) = false /\ Re.free g W (Some c) l.
Proof. reflexivity. Qed.

(** [re.sub] leaves a text without match as it is. *)
Lemma sub_aux_free (m : Re.matcher) (repl : list ascii) :
  Re.detects m g W ->
  forall fuel prev l, Re.free g W prev l -> Re.sub_aux m repl fuel prev l = l.
Proof.
  intros Hdet. induction fuel as [|fuel IH]; intros prev l Hfree; [reflexivity|].
  destruct l as [|c l]; [reflexivity|]. cbn [Re.sub_aux].
  destruct Hfree as [Hhit Hfree]. apply Hdet in Hhit. rewrite Hhit.
  now rewrite IH.
Qed.

Lemma free_prev (p p' : option ascii) (l : list ascii) :
  g p = g p' -> Re.free g W p l -> Re.free g W p' l.
Proof.
  intros Hg. destruct l as [|c l]; [intros _; exact I|].
  unfold Re.free, Re.hit. now rewrite Hg.
Qed.

Lemma free_drop (l : list ascii) : forall k c prev,
  Re.free g W prev (c :: l) ->
  Re.free g W (last (c :: take k l)) (drop k l).
Proof.
  induction l as [|d l IH]; intros k c prev [_ Hfree].
  - now rewrite drop_nil.
  - destruct k as [|k]; [exact Hfree|].
    cbn [take drop]. rewrite last_cons_cons. now apply (IH k d (Some c)).
Qed.

Lemma free_app_l (x y : list ascii) : forall prev,
  Re.free g W prev (x ++ y) -> Re.free g W prev x.
Proof.
  induction x as [|c x IH]; intros prev; [intros _; exact I|].
  cbn [app]. intros [Hhit Hfree]. split; [|now apply IH].
  unfold Re.hit in *. destruct (g prev); [|reflexivity]. cbn [andb] in *.
  revert Hhit. apply existsb_transfer. intros w _.
  apply (is_prefix_app w (c :: x) y).
Qed.

Lemma free_lstrip (l : list ascii) : forall prev,
  Re.open_after_space g -> g prev = true ->
  Re.free g W prev l -> Re.free g W None (Py.lstrip_l l).
Proof.
  intros prev [Hnone Hsp]. revert prev.
  induction l as [|c l IH]; intros prev Hprev Hfree; [exact I|].
  cbn [Py.lstrip_l]. destruct (Py.is_space c) eqn:Hc.
  - apply (IH (Some c)); [now apply Hsp | apply Hfree].
  - apply (free_prev prev); [congruence | exact Hfree].
Qed.

Lemma rstrip_l_prefix (l : list ascii) : exists y, l = Py.rstrip_l l ++ y.
Proof.
  induction l as [|c l (y & IH)]; [now exists []|]. cbn [Py.rstrip_l].
  destruct (Py.rstrip_l l) as [|d r].
  - destruct (Py.is_space c); [now exists (c :: l) | now exists l].
  - exists y. cbn [app]. f_equal. exact IH.
Qed.

Lemma free_strip (l : list ascii) :
  Re.open_after_space g ->
  Re.free g W None l -> Re.free g W None (Py.strip_l l).
Proof.
  intros Hopen Hfree. unfold Py.strip_l.
  destruct (rstrip_l_prefix (Py.lstrip_l l)) as (y & Hy).
  apply (free_app_l _ y). rewrite <- Hy.
  apply (free_lstrip l None); [exact Hopen | apply Hopen | exact Hfree].
Qed.

End Free.

(** ** Collapsing runs *)

Section Collapse.

Variable f : ascii -> bool.
Variable r : ascii.
Hypothesis f_r : f r = true.
Hypothesis f_space : forall c, f c = true -> Py.is_space c = true.

Lemma run2_some (prev : option ascii) (l : list ascii) (n : nat) :
  Re.run2 f prev l = Some n -> n = Re.span_len f l /\ 2 <= n.
Proof.
  unfold Re.run2. destruct (2 <=? Re.span_len f l)%nat eqn:E; [|discriminate].
  intros [= <-]. apply Nat.leb_le in E. now split.
Qed.

Lemma run2_none (prev : option ascii) (l : list ascii) :
  Re.run2 f prev l = None <-> Re.span_len f l < 2.
Proof.
  unfold Re.run2. destruct (2 <=? Re.span_len f l)%nat eqn:E.
  - apply Nat.leb_le in E. split; [discriminate | lia].
  - apply Nat.leb_gt in E. tauto.
Qed.

(** One step of the scan. *)
Lemma collapse_match (fuel : nat) (q : option ascii) (c : ascii)
    (l : list ascii) (k : nat) :
  Re.run2 f q (c :: l) = Some (S k) ->
  Re.sub_aux (Re.run2 f) [r] (S fuel) q (c :: l)
  = r :: Re.sub_aux (Re.run2 f) [r] fuel (last (c :: take k l)) (drop k l).
Proof. intros H. cbn [Re.sub_aux]. now rewrite H. Qed.

Lemma collapse_copy (fuel : nat) (q : option ascii) (c : ascii) (l : list ascii) :
  Re.run2 f q (c :: l) = None ->
  Re.sub_aux (Re.run2 f) [r] (S fuel) q (c :: l)
  = c :: Re.sub_aux (Re.run2 f) [r] fuel (Some c) l.
Proof. intros H. cbn [Re.sub_aux]. now rewrite H. Qed.

Lemma run2_cases (q : option ascii) (l : list ascii) :
  Re.run2 f q l = None \/ exists k, Re.run2 f q l = Some (S k).
Proof.
  destruct (Re.run2 f q l) as [n|] eqn:E; [|now left].
  right. destruct (run2_some _ _ _ E) as [_ Hn].
  destruct n as [|k]; [lia | now exists k].
Qed.

(** A word without character of the class that starts the collapsed
    text starts the text. *)
Lemma prefix_collapse (w : list ascii) :
  forallb (fun c => negb (f c)) w = true ->
  forall fuel q x,
    Re.is_prefix w (Re.sub_aux (Re.run2 f) [r] fuel q x) = true ->
    Re.is_prefix w x = true.
Proof.
  induction w as [|a w IH]; intros Hw fuel q x; [reflexivity|].
  cbn [forallb] in Hw. apply andb_prop in Hw. destruct Hw as [Ha Hw].
  destruct fuel as [|fuel]; [intros H; exact H|].
  destruct x as [|c x]; [intros H; exact H|].
  destruct (run2_cases q (c :: x)) as [E|(k & E)].
  - rewrite (collapse_copy _ _ _ _ E). cbn [Re.is_prefix].
    intros H. apply andb_prop in H. destruct H as [-> H].
    now rewrite (IH Hw _ _ _ H).
  - rewrite (collapse_match _ _ _ _ _ E). cbn [Re.is_prefix].
    intros H. apply andb_prop in H. destruct H as [H _].
    apply Ascii.eqb_eq in H. subst a. now rewrite f_r in Ha.
Qed.

Lemma span_collapse_0 (fuel : nat) (q : option ascii) (l : list ascii) :
  Re.span_len f l = 0 ->
  Re.span_len f (Re.sub_aux (Re.run2 f) [r] fuel q l) = 0.
Proof.
  destruct fuel as [|fuel]; [intros H; exact H|].
  destruct l as [|c l]; [intros H; exact H|].
  intros H. rewrite collapse_copy by (apply run2_none; lia).
  cbn [Re.span_len] in *. now destruct (f c).
Qed.

Lemma clean_words_in (W : list (list ascii)) (w : list ascii) :
  Re.clean_words f W = true -> In w W ->
  exists a w', w = a :: w' /\ f a = false
               /\ forallb (fun c => negb (f c)) w = true.
Proof.
  unfold Re.clean_words. rewrite forallb_forall. intros H Hw.
  specialize (H w Hw). destruct w as [|a w']; [discriminate|].
  exists a, w'. split; [reflexivity|]. split; [|exact H].
  cbn [forallb] in H. apply andb_prop in H. destruct H as [H _].
  now destruct (f a).
Qed.

(** Collapsing runs creates no match of a pattern whose words avoid the
    class. *)
Lemma free_collapse (g : option ascii -> bool) (W : list (list ascii)) :
  Re.open_after_space g -> Re.clean_words f W = true ->
  forall fuel l prev q,
    length l <= fuel ->
    Re.free g W prev l ->
    Re.free g W prev (Re.sub_aux (Re.run2 f) [r] fuel q l).
Proof.
  intros [Hnone Hsp] Hclean.
  induction fuel as [|fuel IH]; intros l prev q Hlen Hfree; [exact Hfree|].
  destruct l as [|c l]; [exact I|]. cbn [length] in Hlen.
  destruct (run2_cases q (c :: l)) as [E|(k & E)].
  - rewrite (collapse_copy _ _ _ _ E). destruct Hfree as [Hhit Hfree].
    split; [|apply IH; [lia | exact Hfree]].
    unfold Re.hit in *. destruct (g prev); [|reflexivity]. cbn [andb] in *.
    revert Hhit. apply existsb_transfer. intros w Hw.
    destruct (clean_words_in W w Hclean Hw) as (a & w' & _ & _ & Hcl).
    rewrite <- (collapse_copy fuel q c l E). apply (prefix_collapse w Hcl).
  - rewrite (collapse_match _ _ _ _ _ E). split.
    + unfold Re.hit. apply andb_false_intro2.
      apply not_true_is_false. intros Hex. apply existsb_exists in Hex.
      destruct Hex as (w & Hw & Hp).
      destruct (clean_words_in W w Hclean Hw) as (a & w' & -> & Ha & _).
      cbn [Re.is_prefix] in Hp. apply andb_prop in Hp. destruct Hp as [Hp _].
      apply Ascii.eqb_eq in Hp. subst a. congruence.
    + apply IH; [rewrite length_drop; lia|].
      destruct (run2_some _ _ _ E) as [Hn _].
      destruct (span_len_last f (c :: l) k (eq_sym Hn)) as (x & Hx & Hfx).
      change (take (S k) (c :: l)) with (c :: take k l) in Hx.
      apply (free_prev g W (last (c :: take k l))).
      * rewrite Hx. rewrite !Hsp; [reflexivity | now apply f_space | now apply f_space].
      * now apply (free_drop g W l k c prev).
Qed.

(** The collapsed text has no run of two. *)
Lemma collapse_free (Wf : list (list ascii)) :
  Re.detects (Re.run2 f) Re.always Wf ->
  forall fuel l prev q,
    length l <= fuel ->
    Re.free Re.always Wf prev (Re.sub_aux (Re.run2 f) [r] fuel q l).
Proof.
  intros Hdet. induction fuel as [|fuel IH]; intros l prev q Hlen.
  - destruct l; [exact I | cbn in Hlen; lia].
  - destruct l as [|c l]; [exact I|]. cbn [length] in Hlen.
    destruct (run2_cases q (c :: l)) as [E|(k & E)].
    + rewrite (collapse_copy _ _ _ _ E). split; [|apply IH; lia].
      apply (Hdet prev). apply run2_none. apply run2_none in E.
      cbn [Re.span_len] in *. destruct (f c); [|lia].
      rewrite span_collapse_0; lia.
    + rewrite (collapse_match _ _ _ _ _ E).
      split; [|apply IH; rewrite length_drop; lia].
      apply (Hdet prev). apply run2_none. cbn [Re.span_len]. rewrite f_r.
      rewrite span_collapse_0; [lia|].
      destruct (run2_some _ _ _ E) as [Hn _]. cbn [Re.span_len] in Hn.
      destruct (f c); [|discriminate]. injection Hn as ->.
      apply span_len_drop.
Qed.

End Collapse.

(** ** Removing the inline labels leaves none *)

Lemma inline_label_after_word (p : ascii) (l : list ascii) :
  Py.is_word p = true -> Re.inline_label (Some p) l = None.
Proof.
  intros Hp. apply detects_inline. unfold Re.hit, Re.not_after_word.
  now rewrite Hp.
Qed.

Lemma inline_label_pos (prev : option ascii) (l : list ascii) :
  Re.inline_label prev l <> Some 0.
Proof.
  unfold Re.inline_label. destruct (Re.at_boundary prev l); [|discriminate].
  intros H. destruct (label_ws_last _ _ _ H) as (k & _ & Hk & _). discriminate.
Qed.

(** Inside a word nothing is removed: a word followed by one more
    character that starts the result starts the text. *)
Lemma inline_keeps_word (L : list ascii) (z : ascii) :
  forallb Py.is_word L = true ->
  forall fuel p x,
    Py.is_word p = true ->
    Re.is_prefix (L ++ [z]) (Re.sub_aux Re.inline_label [] fuel (Some p) x) = true ->
    Re.is_prefix (L ++ [z]) x = true.
Proof.
  induction L as [|a L IH]; intros HL fuel p x Hp;
    (destruct fuel as [|fuel]; [intros H; exact H|]);
    (destruct x as [|d x]; [intros H; exact H|]);
    cbn [Re.sub_aux]; rewrite (inline_label_after_word p _ Hp);
    cbn [app Re.is_prefix]; intros H; apply andb_prop in H;
    destruct H as [Hd H]; rewrite Hd; cbn [andb].
  - reflexivity.
  - cbn [forallb] in HL. apply andb_prop in HL. destruct HL as [Ha HL].
    apply Ascii.eqb_eq in Hd. subst d. exact (IH HL _ _ _ Ha H).
Qed.

Lemma inline_sub_free :
  forall fuel l prev q,
    length l <= fuel ->
    (Re.not_after_word q = true -> Re.not_after_word prev = true) ->
    Re.free Re.not_after_word Re.label_words q
      (Re.sub_aux Re.inline_label [] fuel prev l).
Proof.
  induction fuel as [|fuel IH]; intros l prev q Hlen Hq.
  - destruct l; [exact I | cbn in Hlen; lia].
  - destruct l as [|c l]; [exact I|]. cbn [length] in Hlen. cbn [Re.sub_aux].
    destruct (Re.inline_label prev (c :: l)) as [[|k]|] eqn:E.
    + now apply inline_label_pos in E.
    + cbn [app]. apply IH; [rewrite length_drop; lia|]. intros _.
      unfold Re.inline_label in E.
      destruct (Re.at_boundary prev (c :: l)); [|discriminate].
      destruct (label_ws_last _ _ _ E) as (k' & x & [= <-] & Hx & Hw).
      change (take (S k) (c :: l)) with (c :: take k l) in Hx.
      rewrite Hx. cbn. now rewrite Hw.
    + split; [|apply IH; [lia | tauto]].
      unfold Re.hit. destruct (Re.not_after_word q) eqn:Hgq; [|reflexivity].
      apply detects_inline in E. unfold Re.hit in E.
      rewrite (Hq eq_refl) in E. cbn [andb] in *.
      revert E. apply existsb_transfer. intros w Hw.
      destruct (label_words_shape w Hw) as (a & L & z & -> & Ha & HL).
      cbn [Re.is_prefix]. intros H. apply andb_prop in H. destruct H as [Hc H].
      rewrite Hc. cbn [andb]. apply Ascii.eqb_eq in Hc. subst c.
      exact (inline_keeps_word L z HL _ _ _ Ha H).
Qed.

(** ** [strip] *)

Lemma rstrip_l_idem (l : list ascii) :
  Py.rstrip_l (Py.rstrip_l l) = Py.rstrip_l l.
Proof.
  induction l as [|c l IH]; [reflexivity|]. cbn [Py.rstrip_l].
  destruct (Py.rstrip_l l) as [|d r] eqn:E.
  - destruct (Py.is_space c) eqn:Hc; [reflexivity|].
    cbn [Py.rstrip_l]. now rewrite Hc.
  - change (Py.rstrip_l (c :: d :: r))
      with (match Py.rstrip_l (d :: r) with
            | [] => if Py.is_space c then [] else [c]
            | r' => c :: r'
            end).
    now rewrite IH.
Qed.

Lemma lstrip_l_head (l : list ascii) :
  Py.lstrip_l l = []
  \/ exists c r, Py.lstrip_l l = c :: r /\ Py.is_space c = false.
Proof.
  induction l as [|c l IH]; [now left|]. cbn [Py.lstrip_l].
  destruct (Py.is_space c) eqn:Hc; [exact IH|]. right. now exists c, l.
Qed.

Lemma strip_l_idem (l : list ascii) : Py.strip_l (Py.strip_l l) = Py.strip_l l.
Proof.
  unfold Py.strip_l.
  destruct (lstrip_l_head l) as [->|(c & r & -> & Hc)]; [reflexivity|].
  destruct (rstrip_l_keeps r c Hc) as (r' & E). rewrite E.
  cbn [Py.lstrip_l]. rewrite Hc, <- E. apply rstrip_l_idem.
Qed.

(** ** The sanitizer without the envelope step *)

Lemma scrub_scrub_l (s : string) :
  scrub s = string_of_list_ascii (scrub_l (list_ascii_of_string s)).
Proof.
  unfold scrub, scrub_l, Re.sub, Py.strip.
  rewrite !list_ascii_of_string_of_list_ascii. reflexivity.
Qed.

Lemma open_not_after_word : Re.open_after_space Re.not_after_word.
Proof.
  split; [reflexivity|]. intros c Hc. cbn. now rewrite space_not_word.
Qed.

Lemma open_always : Re.open_after_space Re.always.
Proof. now split. Qed.

Lemma free_line_of_inline (l : list ascii) : forall prev,
  Re.free Re.not_after_word Re.label_words prev l ->
  forall fuel, Re.sub_aux Re.line_label [] fuel prev l = l.
Proof.
  induction l as [|c l IH]; intros prev Hfree fuel;
    (destruct fuel as [|fuel]; [reflexivity|]); [reflexivity|].
  destruct Hfree as [Hhit Hfree]. cbn [Re.sub_aux].
  apply detects_inline in Hhit. apply line_label_inline in Hhit.
  rewrite Hhit. now rewrite IH.
Qed.

(** What the sanitizer returns has no label, no run of newlines, no run
    of blanks and no whitespace at its ends. *)
Lemma scrub_l_free (l : list ascii) :
  let y := scrub_l l in
  Re.free Re.not_after_word Re.label_words None y
  /\ Re.free Re.always Re.nl_words None y
  /\ Re.free Re.always Re.blank_words None y.
Proof.
  cbv zeta. unfold scrub_l, Re.sub_l, Re.newlines, Re.blanks.
  set (l1 := Re.sub_aux Re.line_label [] (length l) None l).
  set (l2 := Re.sub_aux Re.inline_label [] (length l1) None l1).
  set (l3 := Re.sub_aux (Re.run2 Re.is_nl) [Py.nl] (length l2) None l2).
  set (l4 := Re.sub_aux (Re.run2 Re.is_blank) [" "%char] (length l3) None l3).
  assert (H2 : Re.free Re.not_after_word Re.label_words None l2).
  { apply inline_sub_free; [lia | tauto]. }
  assert (H3 : Re.free Re.not_after_word Re.label_words None l3).
  { apply (free_collapse Re.is_nl Py.nl); try reflexivity; try lia;
      [exact is_nl_space | exact open_not_after_word | exact H2]. }
  assert (N3 : Re.free Re.always Re.nl_words None l3).
  { apply (collapse_free Re.is_nl Py.nl); try reflexivity; try lia.
    exact detects_newlines. }
  split; [|split].
  - apply free_strip; [exact open_not_after_word|].
    apply (free_collapse Re.is_blank " "%char); try reflexivity; try lia;
      [exact is_blank_space | exact open_not_after_word | exact H3].
  - apply free_strip; [exact open_always|].
    apply (free_collapse Re.is_blank " "%char); try reflexivity; try lia;
      [exact is_blank_space | exact open_always | exact N3].
  - apply free_strip; [exact open_always|].
    apply (collapse_free Re.is_blank " "%char); try reflexivity; try lia.
    exact detects_blanks.
Qed.

Lemma scrub_l_idem (l : list ascii) : scrub_l (scrub_l l) = scrub_l l.
Proof.
  destruct (scrub_l_free l) as (H2 & HN & HB).
  assert (Hs : Py.strip_l (scrub_l l) = scrub_l l).
  { unfold scrub_l at 1 2. apply strip_l_idem. }
  set (y := scrub_l l) in *.
  unfold scrub_l at 1. unfold Re.sub_l.
  rewrite (free_line_of_inline y None H2).
  rewrite (sub_aux_free _ _ _ _ detects_inline _ _ _ H2).
  rewrite (sub_aux_free _ _ _ _ detects_newlines _ _ _ HN).
  rewrite (sub_aux_free _ _ _ _ detects_blanks _ _ _ HB).
  exact Hs.
Qed.

Lemma scrub_idem (s : string) : scrub (scrub s) = scrub s.
Proof.
  rewrite !scrub_scrub_l, list_ascii_of_string_of_list_ascii.
  now rewrite scrub_l_idem.
Qed.


(** ** Enough fuel *)

(** The scan of [re.sub] ends within [length l] steps: any two amounts
    of fuel above that give the same text. *)
Lemma sub_aux_fuel (m : Re.matcher) (repl : list ascii) :
  forall fuel fuel' l prev,
    length l <= fuel -> length l <= fuel' ->
    Re.sub_aux m repl fuel prev l = Re.sub_aux m repl fuel' prev l.
Proof.
  induction fuel as [|fuel IH]; intros fuel' l prev Hlen Hlen'.
  - destruct l; [now destruct fuel' | cbn in Hlen; lia].
  - destruct l as [|c l]; [now destruct fuel'|]. cbn [length] in *.
    destruct fuel' as [|fuel']; [lia|].
    cbn [Re.sub_aux]. destruct (m prev (c :: l)) as [[|k]|].
    + f_equal. apply IH; lia.
    + f_equal. apply IH; rewrite length_drop; lia.
    + f_equal. apply IH; lia.
Qed.

(** Row 0 of the matrix of [_edit_distance] holds [0, 1, ..., m]. *)
Lemma seq_pos (n x : nat) : In x (seq 1 n) -> x <> 0.
Proof. rewrite in_seq. lia. Qed.

Lemma first_column_row0 (rows : list nat) :
  (forall i, In i rows -> i <> 0) ->
  forall dp : list (list nat),
    foldl (fun dp i => Wer.set2 dp i 0 i) dp rows !! 0 = dp !! 0.
Proof.
  induction rows as [|i rows IH]; intros Hpos dp; [reflexivity|].
  cbn [foldl]. rewrite IH by (intros; apply Hpos; now right).
  unfold Wer.set2. apply list_lookup_alter_ne.
  apply (Hpos i). now left.
Qed.

Lemma inner_loop_row0 (ref_words hyp_words : list string) (i : nat) (js : list nat) :
  i <> 0 ->
  forall dp,
    foldl (fun dp j =>
      if Wer.same_word ref_words hyp_words (i - 1) (j - 1)
      then Wer.set2 dp i j (Wer.get2 dp (i - 1) (j - 1))
      else
        let substitute := Wer.get2 dp (i - 1) (j - 1) + 1 in
        let insert := Wer.get2 dp i (j - 1) + 1 in
        let delete := Wer.get2 dp (i - 1) j + 1 in
        Wer.set2 dp i j (Nat.min substitute (Nat.min insert delete))) dp js !! 0
    = dp !! 0.
Proof.
  intros Hi. induction js as [|j js IH]; intros dp; [reflexivity|].
  cbn [foldl]. rewrite IH.
  destruct (Wer.same_word ref_words hyp_words (i - 1) (j - 1));
    unfold Wer.set2; apply list_lookup_alter_ne; congruence.
Qed.

Lemma outer_loop_row0 (ref_words hyp_words : list string) (js is_ : list nat) :
  (forall i, In i is_ -> i <> 0) ->
  forall dp,
    foldl (fun dp i =>
      foldl (fun dp j =>
        if Wer.same_word ref_words hyp_words (i - 1) (j - 1)
        then Wer.set2 dp i j (Wer.get2 dp (i - 1) (j - 1))
        else
          let substitute := Wer.get2 dp (i - 1) (j - 1) + 1 in
          let insert := Wer.get2 dp i (j - 1) + 1 in
          let delete := Wer.get2 dp (i - 1) j + 1 in
          Wer.set2 dp i j (Nat.min substitute (Nat.min insert delete))) dp js)
      dp is_ !! 0
    = dp !! 0.
Proof.
  induction is_ as [|i is_ IH]; intros Hpos dp; [reflexivity|].
  cbn [foldl]. rewrite IH by (intros; apply Hpos; now right).
  apply inner_loop_row0. apply Hpos. now left.
Qed.

Lemma first_row_fold (js : list nat) : forall (dp : list (list nat)) (row : list nat),
  dp !! 0 = Some row ->
  foldl (fun dp j => Wer.set2 dp 0 j j) dp js !! 0
  = Some (foldl (fun row j => <[j := j]> row) row js).
Proof.
  induction js as [|j js IH]; intros dp row Hrow; [exact Hrow|].
  cbn [foldl]. apply IH. unfold Wer.set2.
  rewrite list_lookup_alter_eq, Hrow. reflexivity.
Qed.

Lemma first_row_values (js : list nat) : forall (row : list nat) (j : nat),
  j < length row ->
  (In j js \/ row !! j = Some j) ->
  foldl (fun row j => <[j := j]> row) row js !! j = Some j.
Proof.
  induction js as [|x js IH]; intros row j Hlen H.
  - destruct H as [[]|H]. exact H.
  - cbn [foldl]. apply IH; [now rewrite length_insert|].
    destruct (decide (x = j)) as [->|Hne].
    + right. now apply list_lookup_insert_eq.
    + destruct H as [[H|H]|H]; [congruence | now left |].
      right. now rewrite list_lookup_insert_ne.
Qed.

Lemma fill_dp_row0 (ref_words hyp_words : list string) (j : nat) :
  j <= length hyp_words ->
  Wer.get2 (Wer.fill_dp ref_words hyp_words) 0 j = j.
Proof.
  intros Hj. unfold Wer.get2, Wer.fill_dp.
  rewrite outer_loop_row0 by apply seq_pos.
  rewrite (first_row_fold _ _ (replicate (length hyp_words + 1) 0)).
  2:{ rewrite first_column_row0 by apply seq_pos.
      apply lookup_replicate_2. lia. }
  cbn [mbind option_bind]. rewrite first_row_values; [reflexivity | |].
  - rewrite length_replicate. lia.
  - destruct j as [|j].
    + right. apply lookup_replicate_2. lia.
    + left. apply in_seq. lia.
Qed.

(** The backtrack of [_edit_distance] ends within [i + j] passes: on a
    matrix whose row 0 counts up, any two amounts of fuel above that
    give the same counts. *)
Lemma backtrack_fuel (dp : list (list nat)) (ref_words hyp_words : list string)
    (m : nat) :
  (forall j, j <= m -> Wer.get2 dp 0 j = j) ->
  forall fuel fuel' i j sdi,
    j <= m -> i + j <= fuel -> i + j <= fuel' ->
    Wer.backtrack fuel dp ref_words hyp_words i j sdi
    = Wer.backtrack fuel' dp ref_words hyp_words i j sdi.
Proof.
  intros Hrow.
  induction fuel as [|fuel IH]; intros fuel' i j sdi Hm Hlen Hlen'.
  - assert (i = 0) by lia. assert (j = 0) by lia. subst.
    destruct fuel'; [reflexivity|]. cbn. now destruct sdi as [[? ?] ?].
  - destruct fuel' as [|fuel'].
    + assert (i = 0) by lia. assert (j = 0) by lia. subst.
      cbn. now destruct sdi as [[? ?] ?].
    + cbn [Wer.backtrack]. destruct sdi as [[s d] ins].
      destruct ((0 <? i) || (0 <? j))%nat eqn:Hij; [|reflexivity].
      destruct ((0 <? i) && (0 <? j))%nat eqn:Hboth; cbn [andb].
      * apply andb_prop in Hboth. destruct Hboth as [Hi Hj].
        apply Nat.ltb_lt in Hi, Hj.
        destruct (Wer.same_word ref_words hyp_words (i - 1) (j - 1));
          [apply IH; lia|].
        destruct (Wer.get2 dp i j =? Wer.get2 dp (i - 1) (j - 1) + 1)%nat;
          [apply IH; lia|].
        destruct ((0 <? j)%nat
                  && (Wer.get2 dp i j =? Wer.get2 dp i (j - 1) + 1)%nat);
          apply IH; lia.
      * destruct ((0 <? j)%nat
                  && (Wer.get2 dp i j =? Wer.get2 dp i (j - 1) + 1)%nat) eqn:Hj.
        { apply andb_prop in Hj. destruct Hj as [Hj _]. apply Nat.ltb_lt in Hj.
          apply IH; lia. }
        assert (Hi : 0 < i).
        { destruct i as [|i]; [|lia]. exfalso.
          assert (Hpos : 0 < j) by (destruct j; [discriminate Hij | lia]).
          apply andb_false_iff in Hj. destruct Hj as [Hj|Hj].
          - apply Nat.ltb_ge in Hj. lia.
          - apply Nat.eqb_neq in Hj. apply Hj.
            rewrite !Hrow by lia. lia. }
        apply IH; lia.
Qed.

Lemma edit_distance_fuel (ref_words hyp_words : list string) (extra : nat) :
  Wer.backtrack (length ref_words + length hyp_words + extra)
    (Wer.fill_dp ref_words hyp_words) ref_words hyp_words
    (length ref_words) (length hyp_words) (0, 0, 0)
  = Wer._edit_distance ref_words hyp_words.
Proof.
  unfold Wer._edit_distance.
  apply (backtrack_fuel _ _ _ (length hyp_words)); try lia.
  intros j Hj. now apply fill_dp_row0.
Qed.

(** ** The tests of the repository and the examples of the description *)

Example test_perfect_match : Wer.wer "hello world" "hello world" = FRat (0 # 2).
Proof. reflexivity. Qed.

Example test_substitution : Wer.wer "hello world" "hello there" = FRat (1 # 2).
Proof. reflexivity. Qed.

Example test_insertion :
  Wer.wer "hello world" "hello beautiful world" = FRat (1 # 2).
Proof. reflexivity. Qed.

Example test_deletion :
  Wer.wer "hello wonderful world" "hello world" = FRat (1 # 3).
Proof. reflexivity. Qed.

Example test_empty_reference_and_hypothesis : Wer.wer "" "" = FRat 0.
Proof. reflexivity. Qed.

Example test_empty_reference_nonempty_hypothesis : Wer.wer "" "hello" = FInf false.
Proof. reflexivity. Qed.

Example clean_reply_envelope : clean_reply json_loads_ref envelope = "Hi!".
Proof. reflexivity. Qed.

Example query_ollama_primary_down :
  query_ollama json_loads_ref py_repr_ref json_loads_bytes_ref
      down_cli_ok "User: hi" "tinyllama:1.1b"
  = Ret "ok".
Proof. reflexivity. Qed.

Example query_ollama_nonzero_exit :
  query_ollama json_loads_ref py_repr_ref json_loads_bytes_ref
    {| post := fun _ _ => PostRaises RequestException;
       run := fun _ _ => Completed 1 "" "Error: model not found " |}
    "User: hi" "tinyllama:1.1b"
  = Ret "Error: model not found".
Proof. reflexivity. Qed.

(** * The claims *)

(** C1 (the code departs from it).  When the response declares no
    charset the lines arrive as [bytes].  A line that is not JSON, read
    before any [done] fragment, is then not appended to the reply: it
    makes [''.join(pieces)] raise [TypeError], whatever the other lines
    hold, so that the primary path is given up and [query_ollama] turns to
    the fallback. *)
Theorem query_ollama_http_bytes_line_raises :
  forall json_loads py_repr json_loads_bytes (b : backend)
         (prompt model : string) (pre rest : list text) (raw : list Byte.byte),
    post b model prompt = Response true (map Got (pre ++ Bytes raw :: rest)) ->
    forallb (fun l => negb (fragment_done json_loads json_loads_bytes l)) pre
    = true ->
    raw <> [] ->
    json_loads_bytes raw = None ->
    query_ollama_http json_loads py_repr json_loads_bytes b prompt model
    = Raise TypeError
    /\ query_ollama json_loads py_repr json_loads_bytes b prompt model
       = query_ollama_cli b prompt model.
Proof.
  intros json_loads py_repr json_loads_bytes b prompt model pre rest raw
    Hpost Hpre Hraw Hjson.
  assert (E : query_ollama_http json_loads py_repr json_loads_bytes
      b prompt model
              = Raise TypeError).
  { unfold query_ollama_http. rewrite Hpost, read_fragments_lines.
    rewrite (upto_done_app _ _ _ _ Hpre). cbn [upto_done app].
    assert (Hd : fragment_done json_loads json_loads_bytes (Bytes raw) = false).
    { unfold fragment_done. cbn [loads]. rewrite Hjson. apply andb_false_r. }
    assert (Hp : fragment_pieces json_loads py_repr json_loads_bytes (Bytes raw)
                 = [Bytes raw]).
    { unfold fragment_pieces. cbn [loads]. rewrite Hjson.
      destruct raw; [congruence | reflexivity]. }
    rewrite Hd, map_app, concat_app. cbn [map concat]. rewrite Hp.
    cbn [app]. now rewrite join_pieces_bytes. }
  split; [exact E|]. unfold query_ollama. now rewrite E.
Qed.

Lemma query_ollama_http_bytes_line_raises_witness :
  query_ollama_http json_loads_ref py_repr_ref json_loads_bytes_ref
    (streaming_bytes fragments_after_control_line) "User: hi" "tinyllama:1.1b"
  = Raise TypeError
  /\ query_ollama json_loads_ref py_repr_ref json_loads_bytes_ref
       (streaming_bytes fragments_after_control_line) "User: hi" "tinyllama:1.1b"
     = Ret "[ERROR: ollama CLI not found]"
  /\ query_ollama_http json_loads_ref py_repr_ref json_loads_bytes_ref
       (streaming fragments_after_control_line) "User: hi" "tinyllama:1.1b"
     = Ret "pingHello".
Proof.
  destruct (query_ollama_http_bytes_line_raises json_loads_ref py_repr_ref
              json_loads_bytes_ref
                  (streaming_bytes fragments_after_control_line)
              "User: hi" "tinyllama:1.1b" []
              (map (fun raw => Bytes (list_byte_of_string raw))
                 [jtext "{'response':'Hello'}"; jtext "{'done':true}"])
              (list_byte_of_string "ping")
              eq_refl eq_refl ltac:(discriminate) eq_refl) as [H1 H2].
  split; [exact H1|]. split; [rewrite H2; reflexivity | reflexivity].
Defined.

(** C2.  When the primary transport fails before a terminator is seen
    (the request raises, the status is an error, or reading the body
    raises behind lines none of which is a [done] fragment), the primary
    path raises, and [query_ollama] returns exactly what the fallback
    returns, whatever was read before the failure: the sentinel string
    when the [ollama] command is not found, and [ok] when the command
    prints [ok]. *)
Theorem query_ollama_falls_back :
  forall json_loads py_repr json_loads_bytes (b : backend)
         (prompt model : string),
    transport_fails json_loads json_loads_bytes (post b model prompt) ->
    (exists e,
       query_ollama_http json_loads py_repr json_loads_bytes b prompt model
       = Raise e
       /\ is_Exception e = true)
    /\ query_ollama json_loads py_repr json_loads_bytes b prompt model
       = query_ollama_cli b prompt model
    /\ (run b model prompt = RunRaises FileNotFoundError ->
        query_ollama json_loads py_repr json_loads_bytes b prompt model
        = Ret "[ERROR: ollama CLI not found]")
    /\ (run b model prompt = Completed 0 "ok" "" ->
        query_ollama json_loads py_repr json_loads_bytes
            b prompt model = Ret "ok").
Proof.
  intros json_loads py_repr json_loads_bytes b prompt model Hfails.
  destruct (query_ollama_http_fails json_loads py_repr json_loads_bytes
              b prompt model Hfails) as (e & Hhttp & He).
  pose proof (query_ollama_fallback _ _ _ _ _ _ _ Hhttp He) as H.
  split; [now exists e|].
  split; [exact H|]. split; intros Hrun; rewrite H;
    unfold query_ollama_cli; rewrite Hrun; reflexivity.
Qed.

Lemma query_ollama_falls_back_witness :
  transport_fails json_loads_ref json_loads_bytes_ref
    (post partial_then_broken "tinyllama:1.1b" "User: hi")
  /\ query_ollama json_loads_ref py_repr_ref json_loads_bytes_ref
       partial_then_broken "User: hi" "tinyllama:1.1b"
     = Ret "ok".
Proof.
  assert (H : transport_fails json_loads_ref json_loads_bytes_ref
                (post partial_then_broken "tinyllama:1.1b" "User: hi")).
  { exists [Str (jtext "{'response':'par'}")], RequestException, [].
    repeat split. }
  split; [exact H|].
  destruct (query_ollama_falls_back json_loads_ref py_repr_ref
              json_loads_bytes_ref partial_then_broken "User: hi"
              "tinyllama:1.1b" H) as (_ & _ & _ & Hok).
  exact (Hok eq_refl).
Defined.

(** C3 (the code departs from it).  With the server down and the
    [ollama] process running into its timeout, [query_ollama] raises
    [TimeoutExpired], the iteration raises it, and [main] ends on it. *)
Theorem cli_timeout_ends_loop :
  forall json_loads py_repr json_loads_bytes
         (a : args) (st : state) (prompt : string),
    query_ollama json_loads py_repr json_loads_bytes
        down_cli_timeout prompt (ollama_model a)
    = Raise TimeoutExpired
    /\ iteration json_loads py_repr json_loads_bytes a io_cli_timeout st
       = Some (Raise TimeoutExpired)
    /\ main json_loads py_repr json_loads_bytes
        a [io_cli_timeout] = Some (Crashed TimeoutExpired).
Proof. intros. repeat split. Qed.

(** C4 (amended).  On the raw reply
    ["User: hi Assistant:  Hello   there\n\n\nfriend"] (which is not JSON)
    [clean_reply] returns ["hi Hello there\nfriend"]: the labels go, the
    echoed user text stays. *)
Theorem clean_reply_raw_reply :
  forall json_loads,
    json_loads raw_reply = None ->
    clean_reply json_loads raw_reply
    = "hi Hello there" +:+ nl_s +:+ "friend".
Proof.
  intros json_loads H. unfold clean_reply, unwrap_envelope. rewrite H.
  vm_compute. reflexivity.
Qed.

Lemma clean_reply_raw_reply_witness :
  json_loads_ref raw_reply = None
  /\ clean_reply json_loads_ref raw_reply
     = "hi Hello there" +:+ nl_s +:+ "friend".
Proof.
  split; [reflexivity|].
  exact (clean_reply_raw_reply json_loads_ref eq_refl).
Defined.

(** C4 as stated fails: the result is not ["Hello there\nfriend"]. *)
Lemma clean_reply_keeps_user_text :
  clean_reply json_loads_ref raw_reply <> "Hello there" +:+ nl_s +:+ "friend".
Proof. vm_compute. discriminate. Qed.

(** C5 (amended).  [clean_reply (clean_reply x) = clean_reply x] for
    every [x] whose cleaned text is left as it is by the envelope step,
    that is, is not itself a JSON object with a string under [response],
    [output], [text] or [result]. *)
Theorem clean_reply_idempotent :
  forall json_loads (x : string),
    unwrap_envelope json_loads (clean_reply json_loads x)
    = clean_reply json_loads x ->
    clean_reply json_loads (clean_reply json_loads x)
    = clean_reply json_loads x.
Proof.
  intros json_loads x H.
  unfold clean_reply at 1. rewrite H.
  destruct (Py.str_truthy (clean_reply json_loads x)) eqn:E; cbn [negb];
    [|reflexivity].
  destruct x as [|c x]; [cbv in E; discriminate E|].
  unfold clean_reply. cbn [Py.str_truthy negb]. apply scrub_idem.
Qed.

Lemma clean_reply_idempotent_witness :
  unwrap_envelope json_loads_ref (clean_reply json_loads_ref envelope)
  = clean_reply json_loads_ref envelope
  /\ clean_reply json_loads_ref (clean_reply json_loads_ref envelope) = "Hi!".
Proof.
  split; [reflexivity|].
  rewrite (clean_reply_idempotent json_loads_ref envelope eq_refl).
  reflexivity.
Defined.

(** C5 as stated fails: on [User: {"response":"hi"}] the first pass
    removes the label and leaves the envelope [{"response":"hi"}], which
    the second pass unwraps to [hi]. *)
Lemma clean_reply_not_idempotent :
  ~ (forall x : string,
       clean_reply json_loads_ref (clean_reply json_loads_ref x)
       = clean_reply json_loads_ref x).
Proof.
  intros H. specialize (H echoed_envelope). vm_compute in H. discriminate H.
Qed.

(** C6 (amended).  For every history and user text, [build_prompt]
    joins with newlines at most 11 entries, namely the last 10 history
    turns rendered as [<Role>: <text>] in chronological order and then
    [User: <newUserText>], followed by [Assistant:], which is always the
    final line; each entry is one line when it contains no newline, and
    then at most 11 content lines precede the final line. *)
Theorem build_prompt_shape :
  forall (h : list (gmap string string)) (u : string),
    let turns := last_slice 10 h in
    let entries := map render turns ++ ["User: " +:+ u] in
    build_prompt h u = Py.join nl_s (entries ++ ["Assistant:"])
    /\ length entries <= 11
    /\ take (length h - 10) h ++ turns = h
    /\ lines (build_prompt h u) = concat (map lines entries) ++ ["Assistant:"]
    /\ (forallb (fun e => negb (has_nl e)) entries = true ->
        lines (build_prompt h u) = entries ++ ["Assistant:"]).
Proof.
  intros h u turns entries.
  assert (Hp : build_prompt h u = Py.join nl_s (entries ++ ["Assistant:"]))
    by apply build_prompt_entries.
  split; [exact Hp|]. split; [|split; [|split]].
  - unfold entries, turns. rewrite length_app, length_map, last_slice_length.
    cbn [length]. lia.
  - apply last_slice_suffix.
  - rewrite Hp. destruct (entries ++ ["Assistant:"]) as [|x xs] eqn:E.
    + now destruct entries.
    + rewrite lines_join, <- E, map_app, concat_app. reflexivity.
  - intros Hnl. rewrite Hp. apply lines_join_flat.
    + now destruct entries.
    + rewrite forallb_app, Hnl. reflexivity.
Qed.

Lemma build_prompt_shape_witness :
  lines (build_prompt [user_turn "a"; assistant_turn "b"] "c")
  = ["User: a"; "Assistant: b"; "User: c"; "Assistant:"].
Proof.
  destruct (build_prompt_shape [user_turn "a"; assistant_turn "b"] "c")
    as (_ & _ & _ & _ & H).
  rewrite H; reflexivity.
Defined.

(** C6 as stated fails: with ten turns in the history, five of them
    replies of two lines, more than 11 lines precede [Assistant:]. *)
Lemma build_prompt_more_than_11_lines :
  ~ (exists content,
       lines (build_prompt chatty_history "hi") = content ++ ["Assistant:"]
       /\ length content <= 11).
Proof.
  intros (content & H & Hlen). apply (f_equal length) in H.
  rewrite length_app in H. cbn [length] in H.
  assert (E : length (lines (build_prompt chatty_history "hi")) = 17)
    by (vm_compute; reflexivity).
  lia.
Qed.

(** C7.  In an iteration whose recognition result is the empty string,
    the state of the dialogue is left as it is (same history, no
    generation request, nothing spoken) and the loop goes on with the
    next iteration. *)
Theorem empty_utterance_skipped :
  forall json_loads py_repr json_loads_bytes
      (a : args) (io : turn_io) (st : state)
         (rest : list turn_io),
    listen_once (timeout a) (mic io) = Some (Ret "") ->
    (exists st',
       iteration json_loads py_repr json_loads_bytes a io st = Some (Ret st')
       /\ history st' = history st
       /\ requests st' = requests st
       /\ spoken st' = spoken st)
    /\ main_loop json_loads py_repr json_loads_bytes a (io :: rest) st
       = main_loop json_loads py_repr json_loads_bytes a rest st.
Proof.
  intros json_loads py_repr json_loads_bytes a io st rest H.
  assert (E : iteration json_loads py_repr json_loads_bytes
      a io st = Some (Ret st)).
  { rewrite (iteration_heard _ _ _ _ _ _ _ H). now rewrite respond_empty. }
  split.
  - exists st. now rewrite E.
  - cbn [main_loop]. now rewrite E.
Qed.

Lemma empty_utterance_skipped_witness :
  listen_once (timeout default_args) (mic io_silence) = Some (Ret "")
  /\ main_loop json_loads_ref py_repr_ref json_loads_bytes_ref
      default_args [io_silence]
       initial_state
     = Some (Ret initial_state).
Proof.
  split; [reflexivity|].
  destruct (empty_utterance_skipped json_loads_ref py_repr_ref json_loads_bytes_ref default_args
              io_silence initial_state [] eq_refl) as [_ H].
  rewrite H. reflexivity.
Defined.

(** C8 (the code departs from it).  While frames keep arriving without a
    final result, [listen_once] never looks at the clock: whatever the
    timeout and however late the frames, it is still listening.  With a
    timeout of zero it does not give up on an empty queue either. *)
Theorem listen_once_timeout_unchecked :
  forall (t s : Q) (times : list Q),
    listen_once (Some t)
      {| open_error := None; start := s;
         events := map (fun now => Frame now None) times |} = None
    /\ listen_once (Some 0%Q)
         {| open_error := None; start := s; events := map Empty times |} = None.
Proof.
  intros t s times. split.
  - apply listen_loop_frames.
  - apply listen_loop_zero_timeout.
Qed.

(** C9 (amended).  With an empty or whitespace-only reference, [wer]
    returns [0.0] when the hypothesis is empty or whitespace-only too,
    that is, has no words, and [float('inf')] when the hypothesis has a
    word. *)
Theorem wer_empty_reference :
  forall reference hypothesis : string,
    Wer.blank reference = true ->
    Wer.wer reference hypothesis
    = if Wer.blank hypothesis then FRat 0 else FInf false.
Proof.
  intros reference hypothesis Href. unfold Wer.wer.
  rewrite (words_blank reference Href). cbn [length Nat.eqb].
  destruct (Wer.blank hypothesis) eqn:Hhyp.
  - now rewrite (words_blank hypothesis Hhyp).
  - pose proof (words_not_blank hypothesis Hhyp) as Hne.
    destruct (Wer.words hypothesis); [congruence | reflexivity].
Qed.

Lemma wer_empty_reference_witness :
  Wer.blank " " = true
  /\ Wer.wer " " "hello" = FInf false
  /\ Wer.wer " " "" = FRat 0.
Proof.
  split; [reflexivity|]. split.
  - rewrite (wer_empty_reference " " "hello" eq_refl). reflexivity.
  - reflexivity.
Defined.

(** C9 as stated fails: a hypothesis of one blank is not the empty
    string, yet against an empty reference [wer] returns [0.0], not
    infinity. *)
Lemma wer_blank_hypothesis_not_inf :
  ~ (forall reference hypothesis : string,
       Wer.blank reference = true ->
       hypothesis <> "" ->
       Wer.wer reference hypothesis = FInf false).
Proof.
  intros H. specialize (H "" " " eq_refl ltac:(discriminate)).
  vm_compute in H. discriminate H.
Qed.

(** C10.  In an iteration with a non-empty recognized text, the prompt
    given to [query_ollama] has the line [User: <text>] twice: once as
    the last history turn, since the turn is appended before the prompt
    is built, and once as the new user line. *)
Theorem prompt_repeats_user_text :
  forall json_loads py_repr json_loads_bytes (a : args) (io : turn_io)
         (u : string) (st : state),
    listen_once (timeout a) (mic io) = Some (Ret u) ->
    u <> "" ->
    let prompt :=
      Py.join nl_s (map render (last_slice 9 (history st))
                    ++ ["User: " +:+ u; "User: " +:+ u; "Assistant:"]) in
    iteration json_loads py_repr json_loads_bytes a io st
    = Some
        match query_ollama json_loads py_repr json_loads_bytes (service io)
                prompt (ollama_model a) with
        | Raise e => Raise e
        | Ret reply => record_reply json_loads a io (begin_turn a u st) reply
        end
    /\ requests (begin_turn a u st)
       = requests st ++ [(prompt, ollama_model a)]
    /\ history (begin_turn a u st) = history st ++ [user_turn u]
    /\ (forall st',
          iteration json_loads py_repr json_loads_bytes
              a io st = Some (Ret st') ->
          requests st' = requests st ++ [(prompt, ollama_model a)]
          /\ exists r,
               history st' = history st ++ [user_turn u; assistant_turn r]).
Proof.
  intros json_loads py_repr json_loads_bytes a io u st Hlisten Hu prompt.
  assert (Hit : iteration json_loads py_repr json_loads_bytes a io st
    = Some
        match query_ollama json_loads py_repr json_loads_bytes (service io)
                prompt (ollama_model a) with
        | Raise e => Raise e
        | Ret reply => record_reply json_loads a io (begin_turn a u st) reply
        end).
  { rewrite (iteration_heard _ _ _ _ _ _ _ Hlisten).
    rewrite respond_nonempty by exact Hu.
    now rewrite build_prompt_after_append. }
  assert (Hreq : requests (begin_turn a u st)
                 = requests st ++ [(prompt, ollama_model a)]).
  { unfold begin_turn, prompt. cbn [requests].
    now rewrite build_prompt_after_append. }
  split; [exact Hit|]. split; [exact Hreq|]. split; [reflexivity|].
  intros st' Hst'. rewrite Hit in Hst'. injection Hst' as Hst'.
  destruct (query_ollama json_loads py_repr json_loads_bytes (service io)
              prompt (ollama_model a)) as [reply|e]; [|discriminate Hst'].
  unfold record_reply in Hst'.
  match type of Hst' with
  | context [tts io ?r] =>
      assert (E : st' = {| history := history (begin_turn a u st)
                                        ++ [assistant_turn r];
                           requests := requests (begin_turn a u st);
                           spoken := spoken (begin_turn a u st) ++ [r] |})
        by (destruct (tts io r) as [e|]; [destruct (is_Exception e)|];
            congruence);
      subst st'; cbn [requests history]; split; [exact Hreq|]; exists r
  end.
  unfold begin_turn. cbn [history]. now rewrite <- app_assoc.
Qed.

Lemma prompt_repeats_user_text_witness :
  listen_once (timeout default_args) (mic io_hello_tts_fails)
  = Some (Ret "hello")
  /\ "hello" <> ""
  /\ forall st',
       iteration json_loads_ref py_repr_ref json_loads_bytes_ref default_args
         io_hello_tts_fails initial_state = Some (Ret st') ->
       requests st'
       = [("User: hello" +:+ nl_s +:+ "User: hello" +:+ nl_s +:+ "Assistant:",
           "tinyllama:1.1b")].
Proof.
  split; [reflexivity|]. split; [discriminate|]. intros st' H.
  destruct (prompt_repeats_user_text json_loads_ref py_repr_ref
              json_loads_bytes_ref default_args io_hello_tts_fails "hello"
              initial_state eq_refl ltac:(discriminate))
    as (_ & _ & _ & Hst).
  destruct (Hst st' H) as [Hreq _]. rewrite Hreq. reflexivity.
Defined.

(** * Further properties of the code *)

(** ** The sanitizer: what a cleaned reply looks like *)

Lemma prev_at_cons (prev : option ascii) (y : ascii) (pre : list ascii) :
  Re.prev_at prev (y :: pre) = Re.prev_at (Some y) pre.
Proof.
  unfold Re.prev_at. destruct pre as [|z pre]; [reflexivity|].
  rewrite last_cons_cons. destruct (last (z :: pre)) eqn:E; [reflexivity|].
  apply last_None in E. discriminate E.
Qed.

Lemma free_positions (g : option ascii -> bool) (W : list (list ascii))
    (l : list ascii) : forall prev,
  Re.free g W prev l
  <-> (forall pre c suf,
         l = pre ++ c :: suf -> Re.hit g W (Re.prev_at prev pre) (c :: suf) = false).
Proof.
  induction l as [|x l IH]; intros prev.
  - split; [|intros _; exact I]. intros _ pre c suf E. now destruct pre.
  - rewrite free_cons, IH. split.
    + intros [Hhit Hrest] pre c suf E. destruct pre as [|y pre].
      * injection E as <- <-. exact Hhit.
      * injection E as <- E. rewrite prev_at_cons. now apply Hrest.
    + intros H. split.
      * exact (H [] x l eq_refl).
      * intros pre c suf E. rewrite <- (prev_at_cons prev).
        apply H. cbn [app]. now rewrite E.
Qed.

Lemma hit_nl_words (p : option ascii) (s : list ascii) :
  Re.hit Re.always Re.nl_words p s = false
  <-> forall suf, s <> Py.nl :: Py.nl :: suf.
Proof.
  unfold Re.hit, Re.always, Re.nl_words. cbn [andb existsb]. rewrite orb_false_r.
  split.
  - intros H suf ->. cbn in H. discriminate H.
  - intros H. destruct (Re.is_prefix [Py.nl; Py.nl] s) eqn:E; [|reflexivity].
    apply is_prefix_spec in E. destruct E as (r & ->). now destruct (H r).
Qed.

Lemma hit_blank_words (p : option ascii) (s : list ascii) :
  Re.hit Re.always Re.blank_words p s = false
  <-> forall a b suf, s = a :: b :: suf -> Re.is_blank a && Re.is_blank b = false.
Proof.
  rewrite <- (detects_blanks p s). unfold Re.blanks. rewrite run2_none.
  split.
  - intros H a b suf ->. cbn [Re.span_len] in H.
    destruct (Re.is_blank a); [|reflexivity].
    destruct (Re.is_blank b); [lia | reflexivity].
  - intros H. destruct s as [|a [|b suf]]; cbn [Re.span_len].
    + lia.
    + destruct (Re.is_blank a); lia.
    + specialize (H a b suf eq_refl).
      destruct (Re.is_blank a); [|lia]. destruct (Re.is_blank b); [discriminate|lia].
Qed.

Lemma hit_label_words (p : option ascii) (s : list ascii) :
  Re.hit Re.not_after_word Re.label_words p s = false
  <-> (forall L suf, In L label_texts -> s = Re.colon L ++ suf ->
       exists c, p = Some c /\ Py.is_word c = true).
Proof.
  unfold Re.hit. split.
  - intros H L suf HL ->.
    assert (E : existsb (fun w => Re.is_prefix w (Re.colon L ++ suf))
                  Re.label_words = true).
    { apply existsb_exists. exists (Re.colon L). split.
      - unfold Re.label_words. apply in_map. exact HL.
      - apply is_prefix_spec. now exists suf. }
    rewrite E, andb_true_r in H. destruct p as [c|]; [|discriminate H].
    exists c. split; [reflexivity|]. cbn in H. now destruct (Py.is_word c).
  - intros H.
    destruct (existsb (fun w => Re.is_prefix w s) Re.label_words) eqn:E;
      [|apply andb_false_r].
    apply existsb_exists in E. destruct E as (w & Hw & Hp).
    unfold Re.label_words in Hw. apply in_map_iff in Hw.
    destruct Hw as (L & <- & HL). apply is_prefix_spec in Hp.
    destruct Hp as (suf & ->). destruct (H L suf HL eq_refl) as (c & -> & Hc).
    cbn. now rewrite Hc.
Qed.

(** The texts of [normal_text] are those without match of any of the
    patterns and without whitespace at the ends. *)
Lemma normal_text_free (l : list ascii) :
  normal_text l
  <-> Py.strip_l l = l
      /\ Re.free Re.always Re.nl_words None l
      /\ Re.free Re.always Re.blank_words None l
      /\ Re.free Re.not_after_word Re.label_words None l.
Proof.
  unfold normal_text. rewrite !free_positions.
  split; intros (Hs & Hn & Hb & Hl); (split; [exact Hs|]); split; [|split| |split].
  - intros pre c suf E. apply hit_nl_words. intros suf' E'.
    rewrite E' in E. exact (Hn _ _ E).
  - intros pre c suf E. apply hit_blank_words. intros a b suf' E'.
    rewrite E' in E. exact (Hb _ _ _ _ E).
  - intros pre c suf E. apply hit_label_words. intros L suf' HL E'.
    rewrite E' in E. destruct (Hl pre L suf' HL E) as (x & Hx & Hw).
    exists x. unfold Re.prev_at. now rewrite Hx.
  - intros pre suf E.
    pose proof (Hn pre Py.nl (Py.nl :: suf) E) as H.
    exact (proj1 (hit_nl_words _ _) H suf eq_refl).
  - intros pre a b suf E.
    pose proof (Hb pre a (b :: suf) E) as H.
    exact (proj1 (hit_blank_words _ _) H a b suf eq_refl).
  - intros pre L suf HL E.
    assert (Hc : exists c r, Re.colon L ++ suf = c :: r).
    { unfold Re.colon. destruct (list_ascii_of_string L); cbn; eauto. }
    destruct Hc as (c & r & Hc). rewrite Hc in E.
    pose proof (Hl pre c r E) as H. rewrite <- Hc in H.
    destruct (proj1 (hit_label_words _ _) H L suf HL eq_refl) as (x & Hx & Hw).
    exists x. split; [|exact Hw]. unfold Re.prev_at in Hx.
    destruct (last pre); [exact Hx | discriminate Hx].
Qed.

Lemma scrub_l_normal (l : list ascii) : normal_text (scrub_l l).
Proof.
  apply normal_text_free. destruct (scrub_l_free l) as (H2 & HN & HB).
  split; [|now repeat split]. unfold scrub_l at 1 2. apply strip_l_idem.
Qed.

Lemma scrub_l_fixed (l : list ascii) : normal_text l -> scrub_l l = l.
Proof.
  intros H. apply normal_text_free in H. destruct H as (Hs & HN & HB & H2).
  unfold scrub_l, Re.sub_l.
  rewrite (free_line_of_inline l None H2).
  rewrite (sub_aux_free _ _ _ _ detects_inline _ _ _ H2).
  rewrite (sub_aux_free _ _ _ _ detects_newlines _ _ _ HN).
  rewrite (sub_aux_free _ _ _ _ detects_blanks _ _ _ HB).
  exact Hs.
Qed.

(** X1.  Whatever the reply, the text [clean_reply] returns has no
    whitespace at its ends, no two newlines in a row, no two blanks in a
    row, and none of the role labels [User:], [Assistant:], [AI:],
    [System:], spelled so, except directly behind a word character. *)
Theorem clean_reply_normal :
  forall json_loads (x : string),
    normal_text (list_ascii_of_string (clean_reply json_loads x)).
Proof.
  intros json_loads x. unfold clean_reply.
  destruct (Py.str_truthy x) eqn:E; cbn [negb].
  - rewrite scrub_scrub_l, list_ascii_of_string_of_list_ascii.
    apply scrub_l_normal.
  - destruct x; [|discriminate E]. apply normal_text_free.
    repeat split.
Qed.

(** X2.  A text that is already in that form and is not a JSON envelope
    is returned as it is. *)
Theorem clean_reply_fixed :
  forall json_loads (x : string),
    normal_text (list_ascii_of_string x) ->
    unwrap_envelope json_loads x = x ->
    clean_reply json_loads x = x.
Proof.
  intros json_loads x Hn Hu. unfold clean_reply.
  destruct (Py.str_truthy x); cbn [negb]; [|reflexivity].
  rewrite Hu, scrub_scrub_l, (scrub_l_fixed _ Hn).
  apply string_of_list_ascii_of_string.
Qed.

Lemma clean_reply_fixed_witness :
  clean_reply json_loads_ref "Hi!" = "Hi!".
Proof.
  apply (clean_reply_fixed json_loads_ref "Hi!").
  - exact (scrub_l_normal (list_ascii_of_string "Hi!")).
  - reflexivity.
Defined.

Lemma forallb_drop {A} (P : A -> bool) (l : list A) : forall k,
  forallb P l = true -> forallb P (drop k l) = true.
Proof.
  induction l as [|x l IH]; intros k H; [now destruct k|].
  destruct k as [|k]; [exact H|]. cbn [drop]. apply IH.
  cbn [forallb] in H. now apply andb_prop in H.
Qed.

(** [re.sub] makes its result from characters of the text and of the
    replacement. *)
Lemma sub_aux_forallb (P : ascii -> bool) (m : Re.matcher) (repl : list ascii) :
  forallb P repl = true ->
  forall fuel prev l,
    forallb P l = true -> forallb P (Re.sub_aux m repl fuel prev l) = true.
Proof.
  intros Hrepl. induction fuel as [|fuel IH]; intros prev l Hl; [exact Hl|].
  destruct l as [|c l]; [reflexivity|]. cbn [Re.sub_aux].
  cbn [forallb] in Hl. apply andb_prop in Hl. destruct Hl as [Hc Hl].
  destruct (m prev (c :: l)) as [[|k]|].
  - cbn [forallb]. now rewrite Hc, IH.
  - rewrite forallb_app, Hrepl, IH; [reflexivity | now apply forallb_drop].
  - cbn [forallb]. now rewrite Hc, IH.
Qed.

Lemma scrub_l_blank (l : list ascii) :
  forallb Py.is_space l = true -> scrub_l l = [].
Proof.
  intros H. unfold scrub_l, Py.strip_l, Re.sub_l.
  rewrite lstrip_l_blank; [reflexivity|].
  repeat (apply sub_aux_forallb; [reflexivity|]). exact H.
Qed.

(** X3.  A reply made of whitespace only, which is not JSON, is cleaned
    to the empty string. *)
Theorem clean_reply_blank :
  forall json_loads (x : string),
    Wer.blank x = true ->
    json_loads x = None ->
    clean_reply json_loads x = "".
Proof.
  intros json_loads x Hb Hj. unfold clean_reply, unwrap_envelope. rewrite Hj.
  destruct (Py.str_truthy x) eqn:E; cbn [negb]; [|now destruct x].
  rewrite scrub_scrub_l, scrub_l_blank; [reflexivity | exact Hb].
Qed.

Lemma clean_reply_blank_witness :
  clean_reply json_loads_ref "  " = "".
Proof.
  apply (clean_reply_blank json_loads_ref "  "); reflexivity.
Defined.

(** ** The sanitizer never adds text *)

Lemma sub_aux_length (m : Re.matcher) (repl : list ascii) :
  length repl <= 1 ->
  forall fuel prev l, length (Re.sub_aux m repl fuel prev l) <= length l.
Proof.
  intros Hrepl. induction fuel as [|fuel IH]; intros prev l; [reflexivity|].
  destruct l as [|c l]; [reflexivity|]. cbn [Re.sub_aux].
  destruct (m prev (c :: l)) as [[|k]|]; cbn [length].
  - specialize (IH (Some c) l). lia.
  - rewrite length_app. specialize (IH (last (c :: take k l)) (drop k l)).
    rewrite length_drop in IH. lia.
  - specialize (IH (Some c) l). lia.
Qed.

Lemma lstrip_l_length (l : list ascii) : length (Py.lstrip_l l) <= length l.
Proof.
  induction l as [|c l IH]; [reflexivity|]. cbn [Py.lstrip_l].
  destruct (Py.is_space c); cbn [length]; lia.
Qed.

Lemma strip_l_length (l : list ascii) : length (Py.strip_l l) <= length l.
Proof.
  unfold Py.strip_l. destruct (rstrip_l_prefix (Py.lstrip_l l)) as (y & Hy).
  pose proof (lstrip_l_length l) as H. apply (f_equal length) in Hy.
  rewrite length_app in Hy. lia.
Qed.

Lemma scrub_l_length (l : list ascii) : length (scrub_l l) <= length l.
Proof.
  unfold scrub_l, Re.sub_l.
  etransitivity; [apply strip_l_length|].
  etransitivity; [apply sub_aux_length; cbn; lia|].
  etransitivity; [apply sub_aux_length; cbn; lia|].
  etransitivity; [apply sub_aux_length; cbn; lia|].
  apply sub_aux_length; cbn; lia.
Qed.

Lemma string_length_of_list (l : list ascii) :
  String.length (string_of_list_ascii l) = length l.
Proof. induction l as [|c l IH]; cbn; [reflexivity | now rewrite IH]. Qed.

Lemma list_length_of_string (s : string) :
  length (list_ascii_of_string s) = String.length s.
Proof. induction s as [|c s IH]; cbn; [reflexivity | now rewrite IH]. Qed.

(** X4.  The cleaned reply is never longer than the text it was made
    from (the reply, or the string taken out of its envelope). *)
Theorem clean_reply_length :
  forall json_loads (x : string),
    String.length (clean_reply json_loads x)
    <= String.length (unwrap_envelope json_loads x).
Proof.
  intros json_loads x. unfold clean_reply.
  destruct (Py.str_truthy x) eqn:E; cbn [negb].
  - rewrite scrub_scrub_l, string_length_of_list, <- list_length_of_string.
    apply scrub_l_length.
  - destruct x; [cbn; lia | discriminate E].
Qed.

(** ** The generation client *)

(** X5.  Once a [done] fragment has been read, nothing that follows in
    the stream matters, not even a transport error: the outcome is that
    of the lines up to the [done] fragment, decoded or not, and for
    decoded lines it is their stripped reply. *)
Theorem query_ollama_http_after_done :
  forall json_loads py_repr json_loads_bytes (b b' : backend)
         (prompt model : string) (ls : list text) (rest : list chunk),
    existsb (fragment_done json_loads json_loads_bytes) ls = true ->
    post b model prompt = Response true (map Got ls ++ rest) ->
    post b' model prompt = Response true (map Got ls) ->
    query_ollama_http json_loads py_repr json_loads_bytes b prompt model
    = query_ollama_http json_loads py_repr json_loads_bytes b' prompt model
    /\ (forall ss : list string,
          ls = map Str ss ->
          query_ollama_http json_loads py_repr json_loads_bytes b prompt model
          = Ret (Py.strip (spec_reply json_loads py_repr ss))).
Proof.
  intros json_loads py_repr json_loads_bytes b b' prompt model ls rest
    Hdone Hpost Hpost'.
  assert (E : query_ollama_http json_loads py_repr json_loads_bytes
      b prompt model
              = query_ollama_http json_loads py_repr json_loads_bytes b'
                  prompt model).
  { unfold query_ollama_http. rewrite Hpost, Hpost'.
    now rewrite (read_fragments_done _ _ _ _ _ Hdone). }
  split; [exact E|]. intros ss ->. rewrite E.
  apply query_ollama_http_lines. now rewrite Hpost', map_map.
Qed.

Lemma query_ollama_http_after_done_witness :
  query_ollama_http json_loads_ref py_repr_ref json_loads_bytes_ref
    hello_then_broken "User: hi" "tinyllama:1.1b"
  = Ret "Hello".
Proof.
  destruct (query_ollama_http_after_done json_loads_ref py_repr_ref
              json_loads_bytes_ref hello_then_broken (streaming fragments_hello)
              "User: hi" "tinyllama:1.1b" (map Str fragments_hello)
              [Broken RequestException] eq_refl eq_refl eq_refl) as [_ H].
  rewrite (H fragments_hello eq_refl). reflexivity.
Defined.

(** X26.  When the lines arrive decoded, [query_ollama_http] returns the
    concatenation, in arrival order, of the contributions of the lines up
    to the first [done] fragment or the end of the stream (the [response]
    field of a line that parses as a JSON object, the line itself when it
    does not parse), with leading and trailing whitespace stripped; for
    the fragments [{"response":"Hel"}], [{"response":"lo"}],
    [{"done":true}] it returns ["Hello"]. *)
Theorem query_ollama_http_reply :
  (forall json_loads py_repr json_loads_bytes (b : backend)
          (prompt model : string) (ls : list string),
     post b model prompt = Response true (map Line ls) ->
     query_ollama_http json_loads py_repr json_loads_bytes b prompt model
     = Ret (Py.strip (spec_reply json_loads py_repr ls)))
  /\ (forall py_repr json_loads_bytes (b : backend) (prompt model : string),
        post b model prompt = Response true (map Line fragments_hello) ->
        query_ollama_http json_loads_ref py_repr json_loads_bytes b prompt model
        = Ret "Hello").
Proof.
  split.
  - intros. now apply query_ollama_http_lines.
  - intros py_repr json_loads_bytes b prompt model Hpost.
    rewrite (query_ollama_http_lines _ _ _ _ _ _ _ Hpost). reflexivity.
Qed.

Lemma query_ollama_http_reply_witness :
  post (streaming fragments_hello) "tinyllama:1.1b" "User: hi"
  = Response true (map Line fragments_hello)
  /\ query_ollama_http json_loads_ref py_repr_ref json_loads_bytes_ref
       (streaming fragments_hello) "User: hi" "tinyllama:1.1b"
     = Ret "Hello".
Proof.
  split; [reflexivity|].
  destruct query_ollama_http_reply as [_ H].
  exact (H py_repr_ref json_loads_bytes_ref (streaming fragments_hello)
           "User: hi" "tinyllama:1.1b" eq_refl).
Defined.

(** The reply is stripped: on the single fragment [{"response":" Hi"}]
    it is ["Hi"], not the concatenation [" Hi"]. *)
Example query_ollama_http_strips_reply :
  query_ollama_http json_loads_ref py_repr_ref json_loads_bytes_ref
    (streaming fragment_padded) "User: hi" "tinyllama:1.1b"
  <> Ret (spec_reply json_loads_ref py_repr_ref fragment_padded).
Proof. vm_compute. discriminate. Qed.

Lemma undecoded_pieces json_loads py_repr json_loads_bytes
    (bs : list (list Byte.byte)) (ss : list string) :
  Forall2 (fun raw s =>
             text_truthy (Bytes raw) = Py.str_truthy s
             /\ json_loads_bytes raw = json_loads s
             /\ (Py.str_truthy s = true -> json_loads s <> None)) bs ss ->
  concat (map (fragment_pieces json_loads py_repr json_loads_bytes)
            (upto_done json_loads json_loads_bytes (map Bytes bs)))
  = concat (map (fragment_pieces json_loads py_repr json_loads_bytes)
              (upto_done json_loads json_loads_bytes (map Str ss))).
Proof.
  induction 1 as [|raw s bs ss (Ht & Hj & Hn) _ IH]; [reflexivity|].
  cbn [map upto_done].
  assert (Hd : fragment_done json_loads json_loads_bytes (Bytes raw)
               = fragment_done json_loads json_loads_bytes (Str s)).
  { unfold fragment_done. cbn [loads]. rewrite Ht, Hj. reflexivity. }
  assert (Hp : fragment_pieces json_loads py_repr json_loads_bytes (Bytes raw)
               = fragment_pieces json_loads py_repr json_loads_bytes (Str s)).
  { unfold fragment_pieces. cbn [loads]. rewrite Ht, Hj. cbn [text_truthy].
    destruct (Py.str_truthy s); cbn [negb]; [|reflexivity].
    destruct (json_loads s); [reflexivity | now destruct Hn]. }
  rewrite Hd. destruct (fragment_done json_loads json_loads_bytes (Str s));
    cbn [map concat]; rewrite Hp; [reflexivity | now rewrite IH].
Qed.

(** X27.  When the lines arrive undecoded and every line that is not
    empty parses as JSON, as the fragments of the service do, the reply
    is that of the decoded lines: the stripped concatenation of the
    [response] fields up to the first [done] fragment. *)
Theorem query_ollama_http_undecoded_json :
  forall json_loads py_repr json_loads_bytes (b : backend)
         (prompt model : string) (bs : list (list Byte.byte))
         (ss : list string),
    Forall2 (fun raw s =>
               text_truthy (Bytes raw) = Py.str_truthy s
               /\ json_loads_bytes raw = json_loads s
               /\ (Py.str_truthy s = true -> json_loads s <> None)) bs ss ->
    post b model prompt = Response true (map BytesLine bs) ->
    query_ollama_http json_loads py_repr json_loads_bytes b prompt model
    = Ret (Py.strip (spec_reply json_loads py_repr ss)).
Proof.
  intros json_loads py_repr json_loads_bytes b prompt model bs ss Hlines Hpost.
  unfold query_ollama_http, spec_reply. rewrite Hpost.
  change (map BytesLine bs) with (map (fun raw => Got (Bytes raw)) bs).
  rewrite <- (map_map Bytes Got), read_fragments_lines.
  rewrite (undecoded_pieces _ py_repr _ _ _ Hlines), upto_done_strs.
  cbn [app]. now rewrite join_pieces_lines.
Qed.

Lemma query_ollama_http_undecoded_json_witness :
  query_ollama_http json_loads_ref py_repr_ref json_loads_bytes_ref
    (streaming_bytes fragments_hello) "User: hi" "tinyllama:1.1b"
  = Ret "Hello".
Proof.
  rewrite (query_ollama_http_undecoded_json json_loads_ref py_repr_ref
             json_loads_bytes_ref (streaming_bytes fragments_hello)
             "User: hi" "tinyllama:1.1b"
             (map list_byte_of_string fragments_hello) fragments_hello).
  - reflexivity.
  - repeat constructor; discriminate.
  - reflexivity.
Defined.




Lemma strip_idem (s : string) : Py.strip (Py.strip s) = Py.strip s.
Proof.
  unfold Py.strip. rewrite list_ascii_of_string_of_list_ascii.
  now rewrite strip_l_idem.
Qed.

Lemma strip_blank (s : string) :
  Py.str_truthy (Py.strip s) = negb (Wer.blank s).
Proof.
  unfold Py.strip, Py.strip_l, Wer.blank.
  destruct (forallb Py.is_space (list_ascii_of_string s)) eqn:E.
  - now rewrite lstrip_l_blank.
  - destruct (lstrip_l_keeps _ E) as (c & r & -> & Hc).
    destruct (rstrip_l_keeps r c Hc) as (r' & ->). reflexivity.
Qed.

(** X7.  Whichever transport answers, the reply [query_ollama] returns
    has no whitespace at its ends. *)
Theorem query_ollama_reply_trimmed :
  forall json_loads py_repr json_loads_bytes
         (b : backend) (prompt model reply : string),
    query_ollama json_loads py_repr json_loads_bytes
        b prompt model = Ret reply ->
    Py.strip reply = reply.
Proof.
  intros json_loads py_repr json_loads_bytes b prompt model reply.
  unfold query_ollama, query_ollama_http, query_ollama_cli.
  assert (Hcli :
    match run b model prompt with
    | Completed rc out err =>
        if (rc =? 0)%Z
        then Ret (if Py.str_truthy (Py.strip out) then Py.strip out
                  else Py.strip err)
        else Ret (Py.strip (out +:+ err))
    | RunRaises e =>
        if is_FileNotFoundError e then Ret sentinel_cli_not_found else Raise e
    end = Ret reply -> Py.strip reply = reply).
  { destruct (run b model prompt) as [rc out err|e].
    - destruct (rc =? 0)%Z; [destruct (Py.str_truthy (Py.strip out))|];
        intros [= <-]; apply strip_idem.
    - destruct (is_FileNotFoundError e); [|discriminate].
      intros [= <-]. reflexivity. }
  destruct (post b model prompt) as [e|ok body].
  - destruct (is_Exception e); [exact Hcli | discriminate].
  - destruct ok.
    + destruct (read_fragments json_loads py_repr json_loads_bytes body [])
        as [ps|e]; [destruct (join_pieces ps) as [joined|e]|].
      * intros [= <-]. apply strip_idem.
      * destruct (is_Exception e); [exact Hcli | discriminate].
      * destruct (is_Exception e); [exact Hcli | discriminate].
    + exact Hcli.
Qed.

Lemma query_ollama_reply_trimmed_witness :
  Py.strip "Hi" = "Hi".
Proof.
  exact (query_ollama_reply_trimmed json_loads_ref py_repr_ref json_loads_bytes_ref
           (streaming fragment_padded) "User: hi" "tinyllama:1.1b" "Hi" eq_refl).
Defined.

(** X8.  An [Exception] that leaves [query_ollama] was raised by the
    [ollama] process after the primary transport had failed, and it is
    not [FileNotFoundError]; when the process ends, with any exit code,
    no [Exception] leaves [query_ollama]. *)
Theorem query_ollama_raises :
  forall json_loads py_repr json_loads_bytes
         (b : backend) (prompt model : string) (e : exn),
    query_ollama json_loads py_repr json_loads_bytes b prompt model = Raise e ->
    is_Exception e = true ->
    run b model prompt = RunRaises e
    /\ e <> FileNotFoundError
    /\ exists e', query_ollama_http json_loads py_repr json_loads_bytes
        b prompt model = Raise e'.
Proof.
  intros json_loads py_repr json_loads_bytes
      b prompt model e. unfold query_ollama.
  destruct (query_ollama_http json_loads py_repr json_loads_bytes
      b prompt model) as [r|e'];
    [discriminate|].
  destruct (is_Exception e') eqn:E'.
  - unfold query_ollama_cli. destruct (run b model prompt) as [rc out err|e''].
    + destruct (rc =? 0)%Z; discriminate.
    + destruct (is_FileNotFoundError e'') eqn:E''; [discriminate|].
      intros [= ->] _. split; [reflexivity|]. split; [|now exists e'].
      intros ->. discriminate E''.
  - intros [= ->] He. congruence.
Qed.

Lemma query_ollama_raises_witness :
  run down_cli_timeout "tinyllama:1.1b" "User: hi" = RunRaises TimeoutExpired.
Proof.
  exact (proj1 (query_ollama_raises json_loads_ref py_repr_ref json_loads_bytes_ref down_cli_timeout
                  "User: hi" "tinyllama:1.1b" TimeoutExpired eq_refl eq_refl)).
Defined.

(** X9.  When the [ollama] process ends with exit code 0, the fallback
    returns its standard output, trimmed, unless that is empty or
    whitespace only: then it returns the standard error, trimmed.  With
    another exit code it returns both, joined and trimmed. *)
Theorem query_ollama_cli_output :
  forall (b : backend) (prompt model : string) (rc : Z) (out err : string),
    run b model prompt = Completed rc out err ->
    query_ollama_cli b prompt model
    = Ret (if (rc =? 0)%Z
           then (if Wer.blank out then Py.strip err else Py.strip out)
           else Py.strip (out +:+ err)).
Proof.
  intros b prompt model rc out err Hrun. unfold query_ollama_cli. rewrite Hrun.
  rewrite strip_blank. now destruct (rc =? 0)%Z, (Wer.blank out).
Qed.

Lemma query_ollama_cli_output_witness :
  query_ollama_cli down_cli_stderr "User: hi" "tinyllama:1.1b"
  = Ret "pulling model".
Proof.
  rewrite (query_ollama_cli_output down_cli_stderr "User: hi" "tinyllama:1.1b"
             0 "  " " pulling model " eq_refl).
  reflexivity.
Defined.

(** ** Listening *)

Lemma listen_loop_quiet (t : option Q) (s : Q) (pre evs : list queue_get) :
  forallb (quiet t s) pre = true ->
  listen_loop t s (pre ++ evs) = listen_loop t s evs.
Proof.
  induction pre as [|ev pre IH]; intros H; [reflexivity|].
  cbn [forallb] in H. apply andb_prop in H. destruct H as [Hev Hpre].
  cbn [app listen_loop]. destruct ev as [now [res|]|now|e]; cbn in Hev;
    try discriminate Hev; [now apply IH|].
  destruct (timed_out t s now); [discriminate Hev | now apply IH].
Qed.

(** X10.  [listen_once] returns the text of the first final result:
    frames without result and polls of the empty queue before the timeout
    are passed over, what follows the result is not read, and a result
    without [text] gives the empty string. *)
Theorem listen_once_first_result :
  forall (t : option Q) (s now : Q) (pre rest : list queue_get)
         (result : gmap string string),
    forallb (quiet t s) pre = true ->
    listen_once t
      {| open_error := None; start := s;
         events := pre ++ Frame now (Some result) :: rest |}
    = Some (Ret (default "" (result !! "text"))).
Proof.
  intros t s now pre rest result Hpre. unfold listen_once. cbn [open_error start events].
  now rewrite listen_loop_quiet.
Qed.

Lemma listen_once_first_result_witness :
  listen_once (Some 5%Q)
    {| open_error := None; start := 0;
       events := [Frame 1 None; Empty 2; Frame 3 None]
                 ++ Frame 4 (Some (<["text" := "hello"]> ∅))
                 :: [Frame 5 (Some (<["text" := "again"]> ∅))] |}
  = Some (Ret "hello").
Proof.
  exact (listen_once_first_result (Some 5%Q) 0 4
           [Frame 1 None; Empty 2; Frame 3 None]
           [Frame 5 (Some (<["text" := "again"]> ∅))]
           (<["text" := "hello"]> ∅) eq_refl).
Defined.

(** X11.  With a timeout other than zero and a queue that stays empty,
    [listen_once] gives up with the empty string as soon as a poll comes
    later than the timeout after the start. *)
Theorem listen_once_times_out_on_silence :
  forall (t s : Q) (times : list Q),
    (~ t == 0)%Q ->
    Exists (fun now => (t < now - s)%Q) times ->
    listen_once (Some t)
      {| open_error := None; start := s; events := map Empty times |}
    = Some (Ret "").
Proof.
  intros t s times Ht Hex. unfold listen_once. cbn [open_error start events].
  induction Hex as [now times Hnow|now times _ IH].
  - now apply listen_loop_empty_late.
  - cbn [map listen_loop]. now destruct (timed_out (Some t) s now).
Qed.

Lemma listen_once_times_out_on_silence_witness :
  listen_once (Some 1%Q)
    {| open_error := None; start := 0;
       events := map Empty [1 # 2; 1; 3 # 2; 2]%Q |}
  = Some (Ret "").
Proof.
  apply (listen_once_times_out_on_silence 1 0 [1 # 2; 1; 3 # 2; 2]%Q).
  - discriminate.
  - apply Exists_cons_tl, Exists_cons_tl, Exists_cons_hd. reflexivity.
Defined.

(** ** The dialogue loop *)

(** X12.  Ctrl+C while the assistant listens does not end the program:
    [listen_once] turns it into "no speech", the state is left as it is
    and the loop goes on with the next iteration. *)
Theorem interrupt_while_listening_ignored :
  forall json_loads py_repr json_loads_bytes
      (a : args) (io : turn_io) (st : state)
         (pre evs : list queue_get) (rest : list turn_io),
    open_error (mic io) = None ->
    events (mic io) = pre ++ Interrupt KeyboardInterrupt :: evs ->
    forallb (quiet (timeout a) (start (mic io))) pre = true ->
    iteration json_loads py_repr json_loads_bytes a io st = Some (Ret st)
    /\ main_loop json_loads py_repr json_loads_bytes a (io :: rest) st
       = main_loop json_loads py_repr json_loads_bytes a rest st.
Proof.
  intros json_loads py_repr json_loads_bytes
      a io st pre evs rest Hopen Hev Hpre.
  assert (E : iteration json_loads py_repr json_loads_bytes
      a io st = Some (Ret st)).
  { unfold iteration, listen_once. rewrite Hopen, Hev.
    now rewrite listen_loop_quiet. }
  split; [exact E|]. cbn [main_loop]. now rewrite E.
Qed.

Lemma interrupt_while_listening_ignored_witness :
  main json_loads_ref py_repr_ref json_loads_bytes_ref
      default_args [io_interrupted] = None.
Proof.
  unfold main.
  rewrite (proj2 (interrupt_while_listening_ignored json_loads_ref py_repr_ref json_loads_bytes_ref
                    default_args io_interrupted initial_state
                    [Frame 1 None] [] [] eq_refl eq_refl eq_refl)).
  reflexivity.
Defined.

Lemma respond_effect json_loads py_repr json_loads_bytes
    (a : args) (io : turn_io) (u : string)
    (st st' : state) :
  respond json_loads py_repr json_loads_bytes a io u st = Ret st' ->
  (u = "" /\ st' = st)
  \/ (u <> "" /\ exists r,
        history st' = history st ++ [user_turn u; assistant_turn r]
        /\ spoken st' = spoken st ++ [r]
        /\ requests st'
           = requests st
             ++ [(build_prompt (history st ++ [user_turn u]) u, ollama_model a)]).
Proof.
  unfold respond. destruct u as [|c u]; cbn [Py.str_truthy negb].
  - intros [= <-]. now left.
  - right. split; [discriminate|].
    destruct (query_ollama json_loads py_repr json_loads_bytes
        (service io) _ (ollama_model a))
      as [reply|e]; [|discriminate].
    unfold record_reply in H.
    set (r := if negb (no_clean a)
              then clean_reply json_loads
                     (if negb (Py.str_truthy reply) then apology else reply)
              else if negb (Py.str_truthy reply) then apology else reply) in *.
    exists r.
    assert (E : st' = {| history := history (begin_turn a (String c u) st)
                                      ++ [assistant_turn r];
                         requests := requests (begin_turn a (String c u) st);
                         spoken := spoken (begin_turn a (String c u) st) ++ [r] |}).
    { destruct (tts io r) as [e|]; [destruct (is_Exception e)|]; congruence. }
    subst st'. cbn [history spoken requests begin_turn].
    rewrite <- app_assoc. now repeat split.
Qed.

(** X13.  A run of the loop only appends to the state: complete
    exchanges (a user turn with non-empty text, then the reply) to the
    history, the replies to what was spoken, and one request for the
    configured model per exchange. *)
Theorem main_loop_appends_exchanges :
  forall json_loads py_repr json_loads_bytes
         (a : args) (ios : list turn_io) (st st' : state),
    main_loop json_loads py_repr json_loads_bytes a ios st = Some (Ret st') ->
    exists turns : list (string * string),
      history st' = history st ++ exchanges turns
      /\ spoken st' = spoken st ++ map snd turns
      /\ map snd (requests st')
         = map snd (requests st) ++ map (fun _ => ollama_model a) turns
      /\ Forall (fun t => t.1 <> "") turns.
Proof.
  intros json_loads py_repr json_loads_bytes
      a ios. induction ios as [|io ios IH]; intros st st' H.
  - injection H as <-. exists []. cbn. now rewrite !app_nil_r.
  - cbn [main_loop] in H.
    destruct (iteration json_loads py_repr json_loads_bytes
        a io st) as [[st1|e]|] eqn:E;
      try discriminate H.
    destruct (IH _ _ H) as (turns & Hh & Hs & Hr & Hne).
    unfold iteration in E.
    destruct (listen_once (timeout a) (mic io)) as [[u|e]|]; try discriminate E.
    injection E as E.
    destruct (respond_effect _ _ _ _ _ _ _ _ E) as [[_ ->]|(Hu & r & H1 & H2 & H3)].
    + now exists turns.
    + exists ((u, r) :: turns). rewrite Hh, Hs, Hr, H1, H2, H3.
      unfold exchanges. cbn [map concat fst snd]. rewrite map_app.
      cbn [map snd app]. rewrite <- !app_assoc. cbn [app].
      repeat split. now constructor.
Qed.

Lemma main_loop_appends_exchanges_witness :
  exists turns : list (string * string),
    [user_turn "hello"; assistant_turn "Hello"] = [] ++ exchanges turns
    /\ ["Hello"] = [] ++ map snd turns
    /\ ["tinyllama:1.1b"] = [] ++ map (fun _ => "tinyllama:1.1b") turns
    /\ Forall (fun t => t.1 <> "") turns.
Proof.
  exact (main_loop_appends_exchanges json_loads_ref py_repr_ref json_loads_bytes_ref default_args
           [io_silence; io_hello_tts_fails] initial_state
           {| history := [user_turn "hello"; assistant_turn "Hello"];
              requests := [("User: hello" +:+ nl_s +:+ "User: hello" +:+ nl_s
                            +:+ "Assistant:", "tinyllama:1.1b")];
              spoken := ["Hello"] |}
           eq_refl).
Defined.

Lemma record_reply_silence json_loads (a : args) (io : turn_io) (st : state)
    (reply : string) :
  tts_recoverable io ->
  record_reply json_loads a io st reply
  = record_reply json_loads a (silence_tts io) st reply.
Proof.
  intros Hio. unfold record_reply. cbn [silence_tts tts].
  match goal with |- context [tts io ?r] => destruct (tts io r) as [e|] eqn:E end;
    [|reflexivity].
  now rewrite (Hio _ _ E).
Qed.

(** X14.  A TTS failure changes nothing but the sound: as long as
    [tts_say] raises only [Exception]s, the loop runs exactly as it does
    with an engine that never fails. *)
Theorem tts_failures_not_fatal :
  forall json_loads py_repr json_loads_bytes
         (a : args) (ios : list turn_io) (st : state),
    Forall tts_recoverable ios ->
    main_loop json_loads py_repr json_loads_bytes a ios st
    = main_loop json_loads py_repr json_loads_bytes a (map silence_tts ios) st.
Proof.
  intros json_loads py_repr json_loads_bytes a ios st Hios. revert st.
  induction Hios as [|io ios Hio _ IH]; intros st; [reflexivity|].
  cbn [map main_loop].
  assert (E : iteration json_loads py_repr json_loads_bytes
      a (silence_tts io) st
              = iteration json_loads py_repr json_loads_bytes a io st).
  { unfold iteration, respond. cbn [silence_tts mic service].
    destruct (listen_once (timeout a) (mic io)) as [[u|e]|]; try reflexivity.
    destruct (negb (Py.str_truthy u)); [reflexivity|].
    destruct (query_ollama json_loads py_repr json_loads_bytes
        (service io) _ _); [|reflexivity].
    now rewrite <- record_reply_silence. }
  rewrite E. destruct (iteration json_loads py_repr json_loads_bytes
      a io st) as [[st1|e]|];
    [apply IH | reflexivity | reflexivity].
Qed.

Lemma tts_failures_not_fatal_witness :
  main_loop json_loads_ref py_repr_ref json_loads_bytes_ref
      default_args [io_hello_tts_fails]
    initial_state
  = main_loop json_loads_ref py_repr_ref json_loads_bytes_ref default_args
      [silence_tts io_hello_tts_fails] initial_state.
Proof.
  apply (tts_failures_not_fatal json_loads_ref py_repr_ref json_loads_bytes_ref
      default_args
           [io_hello_tts_fails] initial_state).
  constructor; [|constructor]. intros text e [= <-]. reflexivity.
Defined.

(** X15.  The apology stands in for an empty raw reply only: a reply
    that is not empty but is cleaned away entirely is recorded and spoken
    as the empty string. *)
Theorem cleaned_away_reply_recorded_empty :
  forall json_loads (a : args) (io : turn_io) (st : state) (reply : string),
    reply <> "" ->
    no_clean a = false ->
    clean_reply json_loads reply = "" ->
    tts io "" = None ->
    record_reply json_loads a io st reply
    = Ret {| history := history st ++ [assistant_turn ""];
             requests := requests st;
             spoken := spoken st ++ [""] |}.
Proof.
  intros json_loads a io st reply Hne Hclean Hempty Htts. unfold record_reply.
  destruct reply as [|c reply]; [congruence|]. cbn [Py.str_truthy negb].
  rewrite Hclean. cbn [negb]. now rewrite Hempty, Htts.
Qed.

Lemma cleaned_away_reply_recorded_empty_witness :
  record_reply json_loads_ref default_args io_label_only initial_state
    "Assistant:"
  = Ret {| history := [assistant_turn ""]; requests := []; spoken := [""] |}.
Proof.
  exact (cleaned_away_reply_recorded_empty json_loads_ref default_args
           io_label_only initial_state "Assistant:" ltac:(discriminate)
           eq_refl eq_refl eq_refl).
Defined.

(** ** The prompt *)

(** X16.  Turns older than the last ten do not reach the prompt. *)
Theorem build_prompt_window :
  forall (older recent : list (gmap string string)) (u : string),
    10 <= length recent ->
    build_prompt (older ++ recent) u = build_prompt recent u.
Proof.
  intros older recent u Hlen. unfold build_prompt, last_slice.
  rewrite length_app, drop_app_ge by lia.
  replace (length older + length recent - 10 - length older)
    with (length recent - 10) by lia.
  reflexivity.
Qed.

Lemma build_prompt_window_witness :
  build_prompt ([user_turn "old"] ++ chatty_history) "hi"
  = build_prompt chatty_history "hi".
Proof.
  apply (build_prompt_window [user_turn "old"] chatty_history "hi").
  vm_compute. lia.
Defined.

(** ** The matrix of [_edit_distance] *)

Lemma foldl_seq_inv {A} (P : nat -> A -> Prop) (f : A -> nat -> A) :
  forall k a x,
    P a x ->
    (forall j y, a <= j < a + k -> P j y -> P (S j) (f y j)) ->
    P (a + k) (foldl f x (seq a k)).
Proof.
  induction k as [|k IH]; intros a x Hx Hstep.
  - now rewrite Nat.add_0_r.
  - cbn [seq foldl]. rewrite Nat.add_succ_r, <- Nat.add_succ_l.
    apply IH.
    + apply Hstep; [lia | exact Hx].
    + intros j y Hj. apply Hstep. lia.
Qed.

Lemma get2_set2_same (n m : nat) (dp : list (list nat)) (i j v : nat) :
  dp_shape n m dp -> i <= n -> j <= m ->
  Wer.get2 (Wer.set2 dp i j v) i j = v.
Proof.
  intros [Hlen Hrows] Hi Hj. unfold Wer.get2, Wer.set2.
  rewrite list_lookup_alter_eq.
  destruct (dp !! i) as [row|] eqn:E.
  - cbn. rewrite list_lookup_insert_eq; [reflexivity|].
    rewrite Forall_forall in Hrows.
    rewrite (Hrows row); [lia|]. now apply (list_elem_of_lookup_2 dp i).
  - apply lookup_ge_None in E. lia.
Qed.

Lemma get2_set2_other (dp : list (list nat)) (i j v i' j' : nat) :
  i <> i' \/ j <> j' ->
  Wer.get2 (Wer.set2 dp i j v) i' j' = Wer.get2 dp i' j'.
Proof.
  intros H. unfold Wer.get2, Wer.set2.
  destruct (decide (i = i')) as [->|Hne].
  - rewrite list_lookup_alter_eq. destruct (dp !! i') as [row|]; [|reflexivity].
    cbn. rewrite list_lookup_insert_ne; [reflexivity|]. destruct H; congruence.
  - now rewrite list_lookup_alter_ne.
Qed.

Lemma dp_shape_set2 (n m : nat) (dp : list (list nat)) (i j v : nat) :
  dp_shape n m dp -> dp_shape n m (Wer.set2 dp i j v).
Proof.
  intros [Hlen Hrows]. unfold Wer.set2. split.
  - now rewrite length_alter.
  - apply Forall_alter; [exact Hrows|]. intros row _ Hrow.
    now rewrite length_insert.
Qed.

Lemma lev_column (ref_words hyp_words : list string) (i : nat) :
  lev ref_words hyp_words i 0 = i.
Proof. now destruct i. Qed.

Lemma lev_step (ref_words hyp_words : list string) (i j : nat) :
  lev ref_words hyp_words (S i) (S j)
  = if Wer.same_word ref_words hyp_words i j
    then lev ref_words hyp_words i j
    else Nat.min (lev ref_words hyp_words i j + 1)
           (Nat.min (lev ref_words hyp_words (S i) j + 1)
                    (lev ref_words hyp_words i (S j) + 1)).
Proof. reflexivity. Qed.

Lemma dp_start (ref_words hyp_words : list string) :
  let n := length ref_words in
  let m := length hyp_words in
  let dp := replicate (n + 1) (replicate (m + 1) 0) in
  let dp := foldl (fun dp i => Wer.set2 dp i 0 i) dp (seq 1 n) in
  let dp := foldl (fun dp j => Wer.set2 dp 0 j j) dp (seq 1 m) in
  dp_filled ref_words hyp_words 1 1 dp.
Proof.
  intros n m dp0 dp1 dp2.
  assert (H0 : dp_shape n m dp0 /\ forall i j, Wer.get2 dp0 i j = 0).
  { split; [split|].
    - apply length_replicate.
    - apply Forall_replicate. apply length_replicate.
    - intros i j. unfold Wer.get2, dp0.
      destruct (decide (i < n + 1)) as [Hi|Hi].
      + rewrite lookup_replicate_2 by exact Hi. cbn.
        destruct (decide (j < m + 1)) as [Hj|Hj].
        * now rewrite lookup_replicate_2.
        * now rewrite lookup_ge_None_2 by (rewrite length_replicate; lia).
      + now rewrite lookup_ge_None_2 by (rewrite length_replicate; lia). }
  destruct H0 as [Hshape0 Hzero].
  assert (H1 : dp_shape n m dp1
               /\ (forall i', i' < 1 + n -> Wer.get2 dp1 i' 0 = i')
               /\ (forall j', Wer.get2 dp1 0 j' = 0)).
  { apply (foldl_seq_inv
             (fun idx dp => dp_shape n m dp
                            /\ (forall i', i' < idx -> Wer.get2 dp i' 0 = i')
                            /\ (forall j', Wer.get2 dp 0 j' = 0))).
    - split; [exact Hshape0|]. split; [|intros; apply Hzero].
      intros i' Hi'. rewrite Hzero. lia.
    - intros j dp Hj (Hs & Hcol & Hrow). split; [now apply dp_shape_set2|].
      split.
      + intros i' Hi'. destruct (decide (i' = j)) as [->|Hne].
        * apply (get2_set2_same n m); [exact Hs | lia | lia].
        * rewrite get2_set2_other by (left; congruence). apply Hcol. lia.
      + intros j'. rewrite get2_set2_other by (left; lia). apply Hrow. }
  destruct H1 as (Hshape1 & Hcol1 & Hrow1).
  assert (H2 : dp_shape n m dp2
               /\ (forall i', i' < 1 + n -> Wer.get2 dp2 i' 0 = i')
               /\ (forall j', j' < 1 + m -> Wer.get2 dp2 0 j' = j')).
  { apply (foldl_seq_inv
             (fun idx dp => dp_shape n m dp
                            /\ (forall i', i' < 1 + n -> Wer.get2 dp i' 0 = i')
                            /\ (forall j', j' < idx -> Wer.get2 dp 0 j' = j'))).
    - split; [exact Hshape1|]. split; [exact Hcol1|].
      intros j' Hj'. rewrite Hrow1. lia.
    - intros j dp Hj (Hs & Hcol & Hrow). split; [now apply dp_shape_set2|].
      split.
      + intros i' Hi'. rewrite get2_set2_other by (right; lia). now apply Hcol.
      + intros j' Hj'. destruct (decide (j' = j)) as [->|Hne].
        * apply (get2_set2_same n m); [exact Hs | lia | lia].
        * rewrite get2_set2_other by (right; congruence). apply Hrow. lia. }
  destruct H2 as (Hshape2 & Hcol2 & Hrow2).
  split; [exact Hshape2|]. intros i' j' Hi' Hj' [H | [[-> H] | ->]].
  - assert (i' = 0) by lia. subst. cbn [lev]. apply Hrow2. lia.
  - assert (j' = 0) by lia. subst. rewrite lev_column. apply Hcol2. lia.
  - rewrite lev_column. apply Hcol2. fold n. lia.
Qed.

Lemma dp_inner (ref_words hyp_words : list string) (i : nat)
    (dp : list (list nat)) :
  1 <= i <= length ref_words ->
  dp_filled ref_words hyp_words i 1 dp ->
  dp_filled ref_words hyp_words i (1 + length hyp_words)
    (foldl (fun dp j =>
      if Wer.same_word ref_words hyp_words (i - 1) (j - 1)
      then Wer.set2 dp i j (Wer.get2 dp (i - 1) (j - 1))
      else
        let substitute := Wer.get2 dp (i - 1) (j - 1) + 1 in
        let insert := Wer.get2 dp i (j - 1) + 1 in
        let delete := Wer.get2 dp (i - 1) j + 1 in
        Wer.set2 dp i j (Nat.min substitute (Nat.min insert delete)))
      dp (seq 1 (length hyp_words))).
Proof.
  intros Hi Hdp.
  apply (foldl_seq_inv (fun idx dp => dp_filled ref_words hyp_words i idx dp));
    [exact Hdp|].
  intros j y Hj [Hs Hcells].
  destruct i as [|i0]; [lia|]. destruct j as [|j0]; [lia|].
  replace (S i0 - 1) with i0 by lia. replace (S j0 - 1) with j0 by lia.
  assert (Hv : (if Wer.same_word ref_words hyp_words i0 j0
                then Wer.set2 y (S i0) (S j0) (Wer.get2 y i0 j0)
                else
                  let substitute := Wer.get2 y i0 j0 + 1 in
                  let insert := Wer.get2 y (S i0) j0 + 1 in
                  let delete := Wer.get2 y i0 (S j0) + 1 in
                  Wer.set2 y (S i0) (S j0)
                    (Nat.min substitute (Nat.min insert delete)))
               = Wer.set2 y (S i0) (S j0)
                   (lev ref_words hyp_words (S i0) (S j0))).
  { rewrite lev_step. cbv zeta.
    rewrite (Hcells i0 j0) by lia.
    rewrite (Hcells (S i0) j0) by lia.
    rewrite (Hcells i0 (S j0)) by lia.
    now destruct (Wer.same_word ref_words hyp_words i0 j0). }
  rewrite Hv. split; [now apply dp_shape_set2|].
  intros i' j' Hi' Hj' Hdone.
  destruct (decide (i' = S i0 /\ j' = S j0)) as [[-> ->]|Hne].
  - apply (get2_set2_same _ _ _ _ _ _ Hs); lia.
  - rewrite get2_set2_other by lia. apply Hcells; lia.
Qed.

(** Every cell of the matrix of [_edit_distance] holds the distance
    between the two prefixes. *)
Lemma fill_dp_lev (ref_words hyp_words : list string) (i j : nat) :
  i <= length ref_words -> j <= length hyp_words ->
  Wer.get2 (Wer.fill_dp ref_words hyp_words) i j = lev ref_words hyp_words i j.
Proof.
  intros Hi Hj.
  assert (H : dp_filled ref_words hyp_words (1 + length ref_words) 1
                (Wer.fill_dp ref_words hyp_words)).
  { unfold Wer.fill_dp.
    apply (foldl_seq_inv (fun idx dp => dp_filled ref_words hyp_words idx 1 dp)).
    - apply dp_start.
    - intros i' y Hi' Hy.
      pose proof (dp_inner ref_words hyp_words i' y ltac:(lia) Hy) as [Hs Hc].
      split; [exact Hs|]. intros i'' j'' H1 H2 H3. apply Hc; lia. }
  destruct H as [_ H]. apply H; lia.
Qed.

Ltac counts_eq :=
  repeat match goal with
         | |- (_, _) = (_, _) => apply pair_equal_spec; split
         end; lia.

(** The backtrack counts what the distance is made of: from cell
    [(i, j)] it adds [s1] substitutions, [d1] deletions and [i1]
    insertions around [k] matching words. *)
Lemma backtrack_counts (ref_words hyp_words : list string) (dp : list (list nat)) :
  (forall i j, i <= length ref_words -> j <= length hyp_words ->
               Wer.get2 dp i j = lev ref_words hyp_words i j) ->
  forall fuel i j s d ins,
    i <= length ref_words -> j <= length hyp_words -> i + j <= fuel ->
    exists k s1 d1 i1,
      Wer.backtrack fuel dp ref_words hyp_words i j (s, d, ins)
      = (s + s1, d + d1, ins + i1)
      /\ i = k + s1 + d1 /\ j = k + s1 + i1
      /\ s1 + d1 + i1 = lev ref_words hyp_words i j.
Proof.
  intros Hdp. induction fuel as [|fuel IH]; intros i j s d ins Hi Hj Hfuel.
  - assert (i = 0) by lia. assert (j = 0) by lia. subst.
    exists 0, 0, 0, 0. cbn. now rewrite !Nat.add_0_r.
  - destruct i as [|i0], j as [|j0].
    + exists 0, 0, 0, 0. cbn. now rewrite !Nat.add_0_r.
    + cbn [Wer.backtrack Nat.ltb Nat.leb orb andb].
      rewrite !Hdp by lia. cbn [lev]. replace (S j0 - 1) with j0 by lia.
      rewrite (proj2 (Nat.eqb_eq _ _)) by lia.
      destruct (IH 0 j0 s d (ins + 1) ltac:(lia) ltac:(lia) ltac:(lia))
          as (k & s1 & d1 & i1 & -> & Hk1 & Hk2 & Hl).
      cbn [lev] in Hl. exists k, s1, d1, (i1 + 1).
      split; [counts_eq|]. lia.
    + cbn [Wer.backtrack Nat.ltb Nat.leb orb andb].
      replace (S i0 - 1) with i0 by lia.
      destruct (IH i0 0 s (d + 1) ins ltac:(lia) ltac:(lia) ltac:(lia))
          as (k & s1 & d1 & i1 & -> & Hk1 & Hk2 & Hl).
      rewrite lev_column in *. exists k, s1, (d1 + 1), i1.
      split; [counts_eq|]. lia.
    + cbn [Wer.backtrack Nat.ltb Nat.leb orb andb].
      replace (S i0 - 1) with i0 by lia. replace (S j0 - 1) with j0 by lia.
      rewrite !Hdp by lia. rewrite lev_step.
      destruct (Wer.same_word ref_words hyp_words i0 j0).
      * destruct (IH i0 j0 s d ins ltac:(lia) ltac:(lia) ltac:(lia))
          as (k & s1 & d1 & i1 & -> & Hk1 & Hk2 & Hl).
        exists (S k), s1, d1, i1. split; [reflexivity|]. lia.
      * set (a := lev ref_words hyp_words i0 j0).
        set (b := lev ref_words hyp_words (S i0) j0).
        set (c := lev ref_words hyp_words i0 (S j0)).
        destruct (Nat.min (a + 1) (Nat.min (b + 1) (c + 1)) =? a + 1)%nat eqn:Ea.
        { apply Nat.eqb_eq in Ea.
          destruct (IH i0 j0 (s + 1) d ins ltac:(lia) ltac:(lia) ltac:(lia))
          as (k & s1 & d1 & i1 & -> & Hk1 & Hk2 & Hl).
          fold a in Hl. exists k, (s1 + 1), d1, i1.
          split; [counts_eq|]. lia. }
        destruct (Nat.min (a + 1) (Nat.min (b + 1) (c + 1)) =? b + 1)%nat eqn:Eb.
        { apply Nat.eqb_eq in Eb.
          destruct (IH (S i0) j0 s d (ins + 1) ltac:(lia) ltac:(lia) ltac:(lia))
          as (k & s1 & d1 & i1 & -> & Hk1 & Hk2 & Hl).
          fold b in Hl. exists k, s1, d1, (i1 + 1).
          split; [counts_eq|]. lia. }
        apply Nat.eqb_neq in Ea, Eb.
        destruct (IH i0 (S j0) s (d + 1) ins ltac:(lia) ltac:(lia) ltac:(lia))
          as (k & s1 & d1 & i1 & -> & Hk1 & Hk2 & Hl).
        fold c in Hl. exists k, s1, (d1 + 1), i1.
        split; [counts_eq|]. lia.
Qed.

(** What [_edit_distance] returns, in terms of the recurrence. *)
Lemma edit_distance_account :
  forall ref_words hyp_words : list string,
    exists k s d ins,
      Wer._edit_distance ref_words hyp_words = (s, d, ins)
      /\ s + d + ins
         = lev ref_words hyp_words (length ref_words) (length hyp_words)
      /\ length ref_words = k + s + d
      /\ length hyp_words = k + s + ins.
Proof.
  intros ref_words hyp_words. unfold Wer._edit_distance.
  destruct (backtrack_counts ref_words hyp_words
              (Wer.fill_dp ref_words hyp_words)
              (fill_dp_lev ref_words hyp_words)
              (length ref_words + length hyp_words)
              (length ref_words) (length hyp_words) 0 0 0)
    as (k & s & d & ins & H & Hk1 & Hk2 & Hl); [lia | lia | lia |].
  exists k, s, d, ins. rewrite H. now repeat split.
Qed.

(** X17.  The substitutions, deletions and insertions [_edit_distance]
    returns add up to the edit distance of the two word lists, and they
    account for both lists: the words of the reference are matched,
    substituted or deleted, those of the hypothesis matched, substituted
    or inserted. *)
Theorem edit_distance_counts :
  forall ref_words hyp_words : list string,
    exists k s d ins,
      Wer._edit_distance ref_words hyp_words = (s, d, ins)
      /\ s + d + ins
         = lev ref_words hyp_words (length ref_words) (length hyp_words)
      /\ length ref_words = k + s + d
      /\ length hyp_words = k + s + ins.
Proof. exact edit_distance_account. Qed.

Lemma lev_le_max (ref_words hyp_words : list string) (i : nat) : forall j,
  lev ref_words hyp_words i j <= Nat.max i j.
Proof.
  induction i as [|i IHi]; intros j; [cbn; lia|].
  induction j as [|j IHj]; [rewrite lev_column; lia|].
  rewrite lev_step. pose proof (IHi j). pose proof (IHi (S j)).
  destruct (Wer.same_word ref_words hyp_words i j); lia.
Qed.

Lemma lev_zero (ref_words hyp_words : list string) (i : nat) : forall j,
  i <= length ref_words -> j <= length hyp_words ->
  lev ref_words hyp_words i j = 0 <-> take i ref_words = take j hyp_words.
Proof.
  induction i as [|i IHi]; intros j Hi Hj.
  - cbn [lev take]. split.
    + intros ->. reflexivity.
    + intros H. apply (f_equal length) in H. rewrite !length_take in H.
      cbn [length] in H. lia.
  - destruct j as [|j].
    + rewrite lev_column. split; [discriminate|].
      intros H. apply (f_equal length) in H. rewrite !length_take in H.
      cbn [length] in H. lia.
    + rewrite lev_step. unfold Wer.same_word.
      destruct (lookup_lt_is_Some_2 ref_words i ltac:(lia)) as [x Hx].
      destruct (lookup_lt_is_Some_2 hyp_words j ltac:(lia)) as [y Hy].
      rewrite Hx, Hy, (take_S_r _ _ _ Hx), (take_S_r _ _ _ Hy).
      destruct (String.eqb_spec x y) as [->|Hne].
      * rewrite (IHi j) by lia. split; [now intros -> |].
        intros H. now apply app_inj_tail in H.
      * split; [lia|]. intros H. apply app_inj_tail in H. now destruct H.
Qed.

(** X18.  [_edit_distance] finds no error exactly when the two word
    lists are equal, and never more errors than the longer list has
    words. *)
Theorem edit_distance_zero_and_bound :
  forall ref_words hyp_words : list string,
    exists s d ins,
      Wer._edit_distance ref_words hyp_words = (s, d, ins)
      /\ (s + d + ins = 0 <-> ref_words = hyp_words)
      /\ s + d + ins <= Nat.max (length ref_words) (length hyp_words).
Proof.
  intros ref_words hyp_words.
  destruct (edit_distance_account ref_words hyp_words)
    as (k & s & d & ins & H & Hl & _).
  exists s, d, ins. split; [exact H|]. rewrite Hl. split.
  - rewrite lev_zero by lia. now rewrite !firstn_all.
  - apply lev_le_max.
Qed.

(** X19.  Against an empty hypothesis every reference word is a
    deletion; against an empty reference every hypothesis word is an
    insertion. *)
Theorem edit_distance_empty :
  forall words : list string,
    Wer._edit_distance words [] = (0, length words, 0)
    /\ Wer._edit_distance [] words = (0, 0, length words).
Proof.
  intros words. split.
  - destruct (edit_distance_account words [])
      as (k & s & d & ins & -> & _ & H1 & H2).
    cbn [length] in H2. counts_eq.
  - destruct (edit_distance_account [] words)
      as (k & s & d & ins & -> & _ & H1 & H2).
    cbn [length] in H1. counts_eq.
Qed.

(** X20.  For a reference that has words, [wer] is the finite quotient
    of the number of errors by the number [n] of reference words; the
    number of errors is 0 exactly when hypothesis and reference have the
    same words, it is at least the difference of the two word counts and
    at most the larger of them. *)
Theorem wer_with_reference :
  forall reference hypothesis : string,
    Wer.blank reference = false ->
    let n := length (Wer.words reference) in
    let m := length (Wer.words hypothesis) in
    exists errors,
      Wer.wer reference hypothesis = FRat (Z.of_nat errors # Pos.of_nat n)
      /\ (errors = 0 <-> Wer.words reference = Wer.words hypothesis)
      /\ errors <= Nat.max n m
      /\ n - m <= errors /\ m - n <= errors.
Proof.
  intros reference hypothesis Hb n m.
  pose proof (words_not_blank reference Hb) as Hne.
  destruct (edit_distance_account (Wer.words reference) (Wer.words hypothesis))
    as (k & s & d & ins & H & Hl & Hn & Hm).
  exists (s + d + ins). unfold Wer.wer. rewrite H.
  destruct (Wer.words reference) as [|w ws] eqn:E; [congruence|].
  cbn [length Nat.eqb]. split; [reflexivity|]. rewrite Hl.
  split; [|split].
  - rewrite lev_zero by lia. now rewrite !firstn_all.
  - apply lev_le_max.
  - rewrite <- Hl. subst n m. cbn [length] in *. lia.
Qed.

Lemma wer_with_reference_witness :
  exists errors,
    Wer.wer "hello wonderful world" "hello world"
    = FRat (Z.of_nat errors # Pos.of_nat 3)
    /\ (errors = 0 <-> Wer.words "hello wonderful world" = Wer.words "hello world")
    /\ errors <= Nat.max 3 2
    /\ 3 - 2 <= errors /\ 2 - 3 <= errors.
Proof.
  exact (wer_with_reference "hello wonderful world" "hello world" eq_refl).
Defined.

(** ** The words of a text *)

Lemma split_l_trailing (ws : list ascii) :
  forallb Py.is_space ws = true ->
  forall l cur, Py.split_l cur (l ++ ws) = Py.split_l cur l.
Proof.
  intros Hws. induction l as [|c l IH]; intros cur.
  - cbn [app]. revert cur. induction ws as [|c ws IHws]; intros cur; [reflexivity|].
    cbn [forallb] in Hws. apply andb_prop in Hws. destruct Hws as [Hc Hws].
    cbn [Py.split_l]. rewrite Hc. destruct cur as [|x cur].
    + now rewrite (IHws Hws).
    + now rewrite (IHws Hws).
  - cbn [app Py.split_l]. destruct (Py.is_space c).
    + destruct cur; now rewrite IH.
    + apply IH.
Qed.

Lemma split_l_leading (l : list ascii) :
  Py.split_l [] (Py.lstrip_l l) = Py.split_l [] l.
Proof.
  induction l as [|c l IH]; [reflexivity|]. cbn [Py.lstrip_l Py.split_l].
  destruct (Py.is_space c) eqn:Hc; [exact IH|].
  cbn [Py.split_l]. now rewrite Hc.
Qed.

Lemma rstrip_l_trailing (l : list ascii) :
  exists ws, l = Py.rstrip_l l ++ ws /\ forallb Py.is_space ws = true.
Proof.
  induction l as [|c l (ws & IH & Hws)]; [now exists []|]. cbn [Py.rstrip_l].
  destruct (Py.rstrip_l l) as [|d r].
  - destruct (Py.is_space c) eqn:Hc.
    + exists (c :: ws). cbn [app] in *. split; [now rewrite <- IH|].
      cbn [forallb]. now rewrite Hc.
    + exists ws. cbn [app] in *. split; [now rewrite <- IH | exact Hws].
  - exists ws. split; [|exact Hws]. cbn [app]. f_equal. exact IH.
Qed.

Lemma split_l_strip (l : list ascii) :
  Py.split_l [] (Py.strip_l l) = Py.split_l [] l.
Proof.
  unfold Py.strip_l.
  destruct (rstrip_l_trailing (Py.lstrip_l l)) as (ws & Hl & Hws).
  rewrite <- (split_l_leading l). rewrite Hl at 2.
  now rewrite split_l_trailing.
Qed.

Lemma split_l_blank (l : list ascii) :
  forallb Py.is_space l = true -> Py.split_l [] l = [].
Proof. intros H. apply (split_l_trailing l H [] []). Qed.

Lemma words_split (s : string) : Wer.words s = Py.split s.
Proof.
  unfold Wer.words. rewrite strip_blank.
  destruct (Wer.blank s) eqn:E; cbn [negb].
  - unfold Py.split. now rewrite split_l_blank.
  - unfold Py.split, Py.strip.
    now rewrite list_ascii_of_string_of_list_ascii, split_l_strip.
Qed.

(** X21.  The words [wer] works on are those of a plain [split()]: the
    [strip()] and the test for an empty text change nothing. *)
Theorem words_is_split :
  forall s : string, Wer.words s = Py.split s.
Proof. exact words_split. Qed.

Lemma split_l_space (l1 l2 : list ascii) (c : ascii) :
  Py.is_space c = true ->
  forall cur,
    Py.split_l cur (l1 ++ c :: l2) = Py.split_l cur l1 ++ Py.split_l [] l2.
Proof.
  intros Hc. induction l1 as [|a l1 IH]; intros cur.
  - cbn [app Py.split_l]. rewrite Hc. now destruct cur.
  - cbn [app Py.split_l]. destruct (Py.is_space a).
    + destruct cur; now rewrite IH.
    + apply IH.
Qed.

Lemma list_ascii_of_string_app (x y : string) :
  list_ascii_of_string (x +:+ y)
  = list_ascii_of_string x ++ list_ascii_of_string y.
Proof.
  induction x as [|c x IH]; [reflexivity|].
  rewrite sapp_cons. cbn [list_ascii_of_string app]. now rewrite IH.
Qed.

(** X22.  The words of two texts joined by a whitespace character are
    the words of the first followed by the words of the second. *)
Theorem words_of_joined_texts :
  forall (x y : string) (c : ascii),
    Py.is_space c = true ->
    Wer.words (x +:+ String c y) = Wer.words x ++ Wer.words y.
Proof.
  intros x y c Hc. rewrite !words_split. unfold Py.split.
  rewrite list_ascii_of_string_app. cbn [list_ascii_of_string].
  now rewrite (split_l_space _ _ _ Hc), map_app.
Qed.

Lemma words_of_joined_texts_witness :
  Wer.words ("hello  " +:+ String Py.nl " big world")
  = ["hello"] ++ ["big"; "world"].
Proof.
  exact (words_of_joined_texts "hello  " " big world" Py.nl eq_refl).
Defined.

(** ** The model directory *)

Lemma filter_all_length {A} (P : A -> bool) (l : list A) :
  length (List.filter P l) = length l <-> forallb P l = true.
Proof.
  induction l as [|x l IH]; [cbn; tauto|]. cbn [List.filter forallb].
  pose proof (List.filter_length_le P l) as Hle.
  destruct (P x); cbn [length andb].
  - rewrite <- IH. split; lia.
  - split; [lia | discriminate].
Qed.

(** X23.  [verify_model] accepts a directory exactly when it exists,
    holds at least one of [am/final.mdl], [final.mdl], [graph/Gr.fst],
    [ivector/final.ie], and holds [graph/words.txt]; otherwise it raises
    [FileNotFoundError]. *)
Theorem verify_model_accepts :
  forall (fs : string -> bool) (abspath : string -> string) (path : string),
    let p := abspath path in
    (verify_model fs abspath path = Ret tt
     <-> fs p = true
         /\ existsb fs (candidates p) = true
         /\ fs (path_join (path_join p "graph") "words.txt") = true)
    /\ (verify_model fs abspath path = Ret tt
        \/ verify_model fs abspath path = Raise FileNotFoundError).
Proof.
  intros fs abspath path p. unfold verify_model. fold p.
  destruct (fs p); cbn [negb]; [|split; [split; [discriminate | intros []; discriminate] | now right]].
  destruct (length (List.filter (fun c => negb (fs c)) (candidates p))
            =? length (candidates p))%nat eqn:E.
  - apply Nat.eqb_eq, filter_all_length in E.
    assert (Hex : existsb fs (candidates p) = false).
    { destruct (existsb fs (candidates p)) eqn:Hex; [|reflexivity].
      apply existsb_exists in Hex. destruct Hex as (c & Hc & Hfs).
      rewrite forallb_forall in E. specialize (E c Hc). now rewrite Hfs in E. }
    rewrite Hex. split; [|now right].
    split; [discriminate | intros (_ & H & _); discriminate H].
  - assert (Hex : existsb fs (candidates p) = true).
    { destruct (existsb fs (candidates p)) eqn:Hex; [reflexivity|].
      apply Nat.eqb_neq in E. exfalso. apply E. apply filter_all_length.
      apply forallb_forall. intros c Hc.
      destruct (fs c) eqn:Hfs; [|reflexivity].
      assert (existsb fs (candidates p) = true)
        by (apply existsb_exists; now exists c).
      congruence. }
    rewrite Hex.
    destruct (fs (path_join (path_join p "graph") "words.txt")); cbn [negb].
    + split; [tauto | now left].
    + split; [|now right]. split; [discriminate | intros (_ & _ & H); discriminate H].
Qed.

Example verify_model_needs_words :
  verify_model (tree ["/opt/model"; "/opt/model/am/final.mdl"]) (fun p => p)
    "/opt/model"
  = Raise FileNotFoundError.
Proof. reflexivity. Qed.

Example verify_model_accepts_small_model :
  verify_model
    (tree ["/opt/model"; "/opt/model/am/final.mdl"; "/opt/model/graph/words.txt"])
    (fun p => p) "/opt/model"
  = Ret tt.
Proof. reflexivity. Qed.

(** ** More on the dialogue loop *)

Lemma respond_reply_clean json_loads py_repr json_loads_bytes
    (a : args) (io : turn_io)
    (u : string) (st st' : state) :
  no_clean a = false ->
  respond json_loads py_repr json_loads_bytes a io u st = Ret st' ->
  st' = st \/ exists raw, spoken st' = spoken st ++ [clean_reply json_loads raw].
Proof.
  intros Hclean. unfold respond.
  destruct (negb (Py.str_truthy u)); [intros [= <-]; now left|].
  destruct (query_ollama json_loads py_repr json_loads_bytes
      (service io) _ (ollama_model a))
    as [reply|e]; [|discriminate].
  unfold record_reply. rewrite Hclean. cbn [negb]. intros H. right.
  exists (if negb (Py.str_truthy reply) then apology else reply).
  match type of H with
  | context [tts io ?r] =>
      destruct (tts io r) as [e|]; [destruct (is_Exception e)|];
        try discriminate H; injection H as <-; reflexivity
  end.
Qed.

(** X24.  Unless cleaning is switched off, every text the loop gives
    to [tts_say] is a cleaned reply: no whitespace at its ends, no two
    newlines or blanks in a row, no role label at a word boundary. *)
Theorem spoken_texts_are_clean :
  forall json_loads py_repr json_loads_bytes
         (a : args) (ios : list turn_io) (st st' : state),
    no_clean a = false ->
    main_loop json_loads py_repr json_loads_bytes a ios st = Some (Ret st') ->
    Forall (fun r => normal_text (list_ascii_of_string r)) (spoken st) ->
    Forall (fun r => normal_text (list_ascii_of_string r)) (spoken st').
Proof.
  intros json_loads py_repr json_loads_bytes a ios st st' Hclean. revert st.
  induction ios as [|io ios IH]; intros st H Hst.
  - now injection H as <-.
  - cbn [main_loop] in H.
    destruct (iteration json_loads py_repr json_loads_bytes
        a io st) as [[st1|e]|] eqn:E;
      try discriminate H.
    apply (IH st1 H). unfold iteration in E.
    destruct (listen_once (timeout a) (mic io)) as [[u|e]|]; try discriminate E.
    injection E as E.
    destruct (respond_reply_clean _ _ _ _ _ _ _ _ Hclean E) as [->|(raw & ->)];
      [exact Hst|].
    apply Forall_app. split; [exact Hst|]. constructor; [|constructor].
    unfold clean_reply. destruct (Py.str_truthy raw) eqn:Hraw; cbn [negb].
    + rewrite scrub_scrub_l, list_ascii_of_string_of_list_ascii.
      apply scrub_l_normal.
    + destruct raw; [|discriminate Hraw]. apply normal_text_free. repeat split.
Qed.

Lemma spoken_texts_are_clean_witness :
  Forall (fun r => normal_text (list_ascii_of_string r)) ["Hello"].
Proof.
  exact (spoken_texts_are_clean json_loads_ref py_repr_ref json_loads_bytes_ref
      default_args
           [io_hello_tts_fails] initial_state
           {| history := [user_turn "hello"; assistant_turn "Hello"];
              requests := [("User: hello" +:+ nl_s +:+ "User: hello" +:+ nl_s
                            +:+ "Assistant:", "tinyllama:1.1b")];
              spoken := ["Hello"] |}
           eq_refl eq_refl (Forall_nil_2 _)).
Defined.

(** X25.  Ctrl+C while the request is sent is not taken for a failure
    of the primary transport: the fallback is not tried, the exception
    leaves the loop and [main] ends cleanly. *)
Theorem interrupt_during_request_exits :
  forall json_loads py_repr json_loads_bytes
      (a : args) (io : turn_io) (u : string)
         (rest : list turn_io),
    listen_once (timeout a) (mic io) = Some (Ret u) ->
    u <> "" ->
    (forall prompt, post (service io) (ollama_model a) prompt
                    = PostRaises KeyboardInterrupt) ->
    main json_loads py_repr json_loads_bytes a (io :: rest) = Some Exited.
Proof.
  intros json_loads py_repr json_loads_bytes a io u rest Hlisten Hu Hpost.
  unfold main. cbn [main_loop].
  rewrite (iteration_heard _ _ _ _ _ _ _ Hlisten).
  rewrite (respond_nonempty _ _ _ _ _ _ _ Hu).
  unfold query_ollama, query_ollama_http. rewrite Hpost. reflexivity.
Qed.

Lemma interrupt_during_request_exits_witness :
  main json_loads_ref py_repr_ref json_loads_bytes_ref
      default_args [io_interrupted_request]
  = Some Exited.
Proof.
  apply (interrupt_during_request_exits json_loads_ref py_repr_ref json_loads_bytes_ref
           default_args io_interrupted_request "hello" []);
    [reflexivity | discriminate | reflexivity].
Defined.
